(** * ALX Polly: the server actions, embedded and verified

    The development follows the two source files of the actions layer:

    - [app/lib/actions/auth-actions.ts]: [isValidEmail], [isStrongPassword],
      [login], [register], [logout], [getCurrentUser];
    - [app/lib/actions/poll-actions.ts]: [createPoll], [getUserPolls],
      [getAdminPolls], [getPollById], [submitVote], [deletePoll],
      [updatePoll].

    Every action is an [async] function that talks to two collaborators,
    the identity provider and the data store.  An action is embedded as a
    computation in the state monad over a [World] that holds what the
    collaborators hold; [runState (action args) w] gives the payload the
    action returns together with the world it leaves behind. *)

From Stdlib Require Import List String Ascii Bool Arith NArith ZArith Lia.
From Stdlib Require Import DecimalString.
From Stdlib Require Import Sorted Permutation.
From ExtLib Require Import Structures.Monad Structures.MonadState.
From ExtLib Require Import Data.Monads.StateMonad.
Import ListNotations.
Import MonadNotation.
Local Open Scope monad_scope.
Local Open Scope list_scope.

(** ** JavaScript strings

    A JavaScript string is a sequence of UTF-16 code units; [length] counts
    code units and a regular expression without the [u] flag works on
    them.  The embedding keeps exactly that: a list of code units. *)

Module Js.

Definition str := list N.

(** A literal of the source, written with the characters it has; the
    literals of the two files are ASCII, one code unit per character. *)
Definition lit (s : string) : str :=
  map N_of_ascii (list_ascii_of_string s).

(** [a === b] on strings. *)
Fixpoint eqb (a b : str) : bool :=
  match a, b with
  | [], [] => true
  | x :: a', y :: b' => N.eqb x y && eqb a' b'
  | _, _ => false
  end.

Fixpoint eqb_list (a b : list str) : bool :=
  match a, b with
  | [], [] => true
  | x :: a', y :: b' => eqb x y && eqb_list a' b'
  | _, _ => false
  end.

(** Truthiness of a string value: only the empty string is falsy. *)
Definition truthy (s : str) : bool :=
  match s with [] => false | _ => true end.

(** Rendering of a number inside a template literal. *)
Definition of_nat (n : nat) : str :=
  lit (NilEmpty.string_of_uint (Nat.to_uint n)).

Definition between (lo hi c : N) : bool := (lo <=? c)%N && (c <=? hi)%N.
Definition one_of (cs : list N) (c : N) : bool := existsb (N.eqb c) cs.

End Js.

Notation "'js:' s" := (Js.lit s%string) (at level 1, s at level 0, format "'js:' s").

(** ** Regular expressions

    The two patterns of [auth-actions.ts] use character classes,
    concatenation, [+], [*], [{8,}] and look-aheads at the start of the
    input.  They are kept as syntax trees and run by a matcher built on
    derivatives; a look-ahead [(?=r)] at a position followed by [s] is the
    intersection of [r] followed by anything with [s]. *)

Module Regex.

Inductive t :=
| Void                       (* matches nothing *)
| Eps                        (* the empty string *)
| Cls (p : N -> bool)        (* one code unit of a class *)
| Cat (a b : t)
| Alt (a b : t)
| And (a b : t)
| Star (a : t).

Fixpoint nullable (r : t) : bool :=
  match r with
  | Void => false
  | Eps => true
  | Cls _ => false
  | Cat a b => nullable a && nullable b
  | Alt a b => nullable a || nullable b
  | And a b => nullable a && nullable b
  | Star _ => true
  end.

(** Constructors that drop the dead branches a derivative leaves. *)
Definition cat (a b : t) : t :=
  match a, b with
  | Void, _ => Void
  | _, Void => Void
  | Eps, _ => b
  | _, _ => Cat a b
  end.

Definition alt (a b : t) : t :=
  match a, b with
  | Void, _ => b
  | _, Void => a
  | _, _ => Alt a b
  end.

Definition and (a b : t) : t :=
  match a, b with
  | Void, _ => Void
  | _, Void => Void
  | _, _ => And a b
  end.

Fixpoint deriv (c : N) (r : t) : t :=
  match r with
  | Void => Void
  | Eps => Void
  | Cls p => if p c then Eps else Void
  | Cat a b =>
      if nullable a then alt (cat (deriv c a) b) (deriv c b)
      else cat (deriv c a) b
  | Alt a b => alt (deriv c a) (deriv c b)
  | And a b => and (deriv c a) (deriv c b)
  | Star a => cat (deriv c a) (Star a)
  end.

(** [matches r s]: the whole of [s] is in the language of [r], which is
    what [/^r$/.test(s)] computes. *)
Fixpoint matches (r : t) (s : Js.str) : bool :=
  match s with
  | [] => nullable r
  | c :: s' => matches (deriv c r) s'
  end.

Definition plus (a : t) : t := Cat a (Star a).

Fixpoint at_least (n : nat) (a : t) : t :=
  match n with
  | O => Star a
  | S n' => Cat a (at_least n' a)
  end.

Definition anything : t := Star (Cls (fun _ => true)).

(** [(?=a)b] anchored at the start of the input. *)
Definition lookahead (a b : t) : t := And (Cat a anything) b.

(** [\s] *)
Definition space (c : N) : bool :=
  Js.one_of [9; 10; 11; 12; 13; 32; 160; 5760; 8232; 8233; 8239; 8287;
             12288; 65279]%N c
  || Js.between 8192 8202 c.

(** [.] without the [s] flag: anything but a line terminator. *)
Definition dot (c : N) : bool :=
  negb (Js.one_of [10; 13; 8232; 8233]%N c).

(** [\d] *)
Definition digit : N -> bool := Js.between 48 57.
(** [[a-z]] and [[A-Z]] *)
Definition lower : N -> bool := Js.between 97 122.
Definition upper : N -> bool := Js.between 65 90.

End Regex.

(** ** Data model

    Users as the identity provider hands them out, and the rows of the two
    tables [polls] and [votes]. *)

Module User.
(** [user_metadata]: the source reads [is_admin?: boolean] from it, so
    the flag may be absent. *)
Record metadata := { name : option Js.str; is_admin : option bool }.
Record t := { id : Js.str; email : Js.str; user_metadata : metadata }.

(** [user_metadata.is_admin === true] *)
Definition is_admin_strict (u : t) : bool :=
  match is_admin (user_metadata u) with Some true => true | _ => false end.

(** [user_metadata.is_admin] used as a condition: absent and [false]
    are both falsy. *)
Definition is_admin_truthy (u : t) : bool :=
  match is_admin (user_metadata u) with Some b => b | None => false end.
End User.

Module AuthError.
Record t := { message : Js.str }.
End AuthError.

Module PgError.
Record t := { message : Js.str; code : Js.str }.
End PgError.

(** A value of a column, as a filter sees it. *)
Inductive Value :=
| VNull
| VStr (s : Js.str)
| VBool (b : bool)
| VNum (z : Z)
| VArr (l : list Js.str).

Module Value.
(** Equality as the store's [eq] filter decides it: nothing equals
    NULL. *)
Definition eqb (a b : Value) : bool :=
  match a, b with
  | VStr s, VStr s' => Js.eqb s s'
  | VBool x, VBool y => Bool.eqb x y
  | VNum x, VNum y => Z.eqb x y
  | VArr l, VArr l' => Js.eqb_list l l'
  | _, _ => false
  end.

(** [ltb a b]: [a] sorts strictly before [b] in ascending order. *)
Definition ltb (a b : Value) : bool :=
  match a, b with
  | VNum x, VNum y => Z.ltb x y
  | _, _ => false
  end.
End Value.

Module Poll.
Record t := {
  id : Js.str;
  user_id : Js.str;
  question : Js.str;
  options : list Js.str;
  is_public : bool;
  created_at : nat
}.

Definition col (c : string) (p : t) : Value :=
  if String.eqb c "id" then VStr (id p)
  else if String.eqb c "user_id" then VStr (user_id p)
  else if String.eqb c "question" then VStr (question p)
  else if String.eqb c "options" then VArr (options p)
  else if String.eqb c "is_public" then VBool (is_public p)
  else if String.eqb c "created_at" then VNum (Z.of_nat (created_at p))
  else VNull.
End Poll.

Module Vote.
Record t := {
  id : Js.str;
  poll_id : Js.str;
  user_id : option Js.str;     (* null for an anonymous vote *)
  option_index : Z;
  created_at : nat
}.

Definition col (c : string) (v : t) : Value :=
  if String.eqb c "id" then VStr (id v)
  else if String.eqb c "poll_id" then VStr (poll_id v)
  else if String.eqb c "user_id" then
    match user_id v with Some u => VStr u | None => VNull end
  else if String.eqb c "option_index" then VNum (option_index v)
  else if String.eqb c "created_at" then VNum (Z.of_nat (created_at v))
  else VNull.
End Vote.

(** ** The collaborators

    The client of [@/lib/supabase/server] gives access to the identity
    provider and to the data store.  Neither is part of the sources;
    section 6 of the specification gives their contracts. *)

(** The requests the provider can be sent. *)
Inductive IdpRequest :=
| SignIn (email password : Js.str)
| SignUp (email password : Js.str) (data : User.metadata)
| SignOut
| GetUser.

(** Modelled from the spec: the identity provider client, which answers
    [signInWithPassword], [signUp] and [signOut] with an error or none.
    How it decides is its own business; the actions never look inside. *)
Record Provider := {
  signInWithPassword : Js.str -> Js.str -> User.t + AuthError.t;
  signUp : Js.str -> Js.str -> User.metadata -> option AuthError.t;
  signOut : option AuthError.t
}.

(** Modelled from the spec: what the collaborators hold.  The provider
    has a current user, which [getUser] reports together with an error of
    its own; the store has the tables [polls] and [votes], generates the
    columns an insertion leaves out, and may fail a request for reasons of
    its own; the presentation layer is told which paths to render anew. *)
Record World := {
  (* identity provider *)
  idp : Provider;
  idp_requests : list IdpRequest;        (* requests sent, oldest first *)
  session : option User.t;               (* [data.user] of [getUser] *)
  session_error : option AuthError.t;    (* [error] of [getUser] *)
  (* data store *)
  polls : list Poll.t;
  votes : list Vote.t;
  upstream : list (option PgError.t);    (* what the store reports for the
                                            coming requests, in order; past
                                            the end every request is served *)
  serial : nat;                          (* rows inserted so far *)
  uuid : nat -> Js.str;                  (* generated [id] column *)
  is_public_default : bool;              (* column default of [is_public] *)
  (* presentation layer *)
  revalidated : list Js.str              (* paths given to [revalidatePath] *)
}.

Definition with_idp_requests (l : list IdpRequest) (w : World) : World :=
  {| idp := idp w; idp_requests := l; session := session w;
     session_error := session_error w; polls := polls w; votes := votes w;
     upstream := upstream w; serial := serial w; uuid := uuid w;
     is_public_default := is_public_default w; revalidated := revalidated w |}.

Definition with_session (s : option User.t) (w : World) : World :=
  {| idp := idp w; idp_requests := idp_requests w; session := s;
     session_error := session_error w; polls := polls w; votes := votes w;
     upstream := upstream w; serial := serial w; uuid := uuid w;
     is_public_default := is_public_default w; revalidated := revalidated w |}.

Definition with_polls (l : list Poll.t) (w : World) : World :=
  {| idp := idp w; idp_requests := idp_requests w; session := session w;
     session_error := session_error w; polls := l; votes := votes w;
     upstream := upstream w; serial := serial w; uuid := uuid w;
     is_public_default := is_public_default w; revalidated := revalidated w |}.

Definition with_votes (l : list Vote.t) (w : World) : World :=
  {| idp := idp w; idp_requests := idp_requests w; session := session w;
     session_error := session_error w; polls := polls w; votes := l;
     upstream := upstream w; serial := serial w; uuid := uuid w;
     is_public_default := is_public_default w; revalidated := revalidated w |}.

Definition with_upstream (l : list (option PgError.t)) (w : World) : World :=
  {| idp := idp w; idp_requests := idp_requests w; session := session w;
     session_error := session_error w; polls := polls w; votes := votes w;
     upstream := l; serial := serial w; uuid := uuid w;
     is_public_default := is_public_default w; revalidated := revalidated w |}.

Definition with_serial (n : nat) (w : World) : World :=
  {| idp := idp w; idp_requests := idp_requests w; session := session w;
     session_error := session_error w; polls := polls w; votes := votes w;
     upstream := upstream w; serial := n; uuid := uuid w;
     is_public_default := is_public_default w; revalidated := revalidated w |}.

Definition with_revalidated (l : list Js.str) (w : World) : World :=
  {| idp := idp w; idp_requests := idp_requests w; session := session w;
     session_error := session_error w; polls := polls w; votes := votes w;
     upstream := upstream w; serial := serial w; uuid := uuid w;
     is_public_default := is_public_default w; revalidated := l |}.

(** An action of the server: it runs against the world and returns. *)
Definition Action := state World.

Definition run {A} (a : Action A) (w : World) : A * World := runState a w.
Definition result {A} (a : Action A) (w : World) : A := fst (run a w).
Definition after {A} (a : Action A) (w : World) : World := snd (run a w).

(** ** The data store client

    Modelled from the spec: table-oriented requests with [eq] and [or]
    filters, ordering, and a [single()] row fetch whose no-rows error is
    told apart by its code.  A query is built call by call and sent when it
    is awaited. *)

Module Store.

Inductive Filter :=
| Eq (c : string) (v : Value)          (* [.eq(c, v)] *)
| Or (a b : Filter).                   (* [.or("a,b")] *)

Record Query := {
  filters : list Filter;               (* all of them must hold *)
  ordering : option (string * bool)    (* column, ascending *)
}.

(** A table of the store: how a filter reads a row, and where the rows
    live in the world. *)
Record Table (R : Type) := {
  col : string -> R -> Value;
  rows : World -> list R;
  with_rows : list R -> World -> World
}.
Arguments col {R}.
Arguments rows {R}.
Arguments with_rows {R}.

Definition all : Query := {| filters := []; ordering := None |}.

Definition eq (c : string) (v : Value) (q : Query) : Query :=
  {| filters := filters q ++ [Eq c v]; ordering := ordering q |}.

Definition or_ (a b : Filter) (q : Query) : Query :=
  {| filters := filters q ++ [Or a b]; ordering := ordering q |}.

Definition order (c : string) (ascending : bool) (q : Query) : Query :=
  {| filters := filters q; ordering := Some (c, ascending) |}.

Section Rows.
Context {R : Type} (T : Table R).

Fixpoint holds (f : Filter) (r : R) : bool :=
  match f with
  | Eq c v => Value.eqb (col T c r) v
  | Or a b => holds a r || holds b r
  end.

Definition matching (q : Query) (r : R) : bool :=
  forallb (fun f => holds f r) (filters q).

(** [before c asc x y]: [x] must come strictly before [y]. *)
Definition before (c : string) (ascending : bool) (x y : R) : bool :=
  if ascending then Value.ltb (col T c x) (col T c y)
  else Value.ltb (col T c y) (col T c x).

Fixpoint place (c : string) (ascending : bool) (x : R) (l : list R) : list R :=
  match l with
  | [] => [x]
  | y :: l' =>
      if before c ascending x y then x :: y :: l'
      else y :: place c ascending x l'
  end.

(** A stable sort: rows with equal keys keep the order of the table. *)
Definition sorted (q : Query) (l : list R) : list R :=
  match ordering q with
  | None => l
  | Some (c, ascending) => fold_right (place c ascending) [] l
  end.
End Rows.

(** The error of [single()] when the filter does not select exactly one
    row. *)
Definition no_rows : PgError.t :=
  {| PgError.message := js:"JSON object requested, multiple (or no) rows returned";
     PgError.code := js:"PGRST116" |}.

(** One round trip: the store either reports a failure of its own or
    serves the request. *)
Definition request : Action (option PgError.t) :=
  w <- get ;;
  match upstream w with
  | [] => ret None
  | o :: rest => put (with_upstream rest w) ;; ret o
  end.

Section Operations.
Context {R : Type} (T : Table R).

(** [from(t).select(...)] with filters and ordering. *)
Definition select (q : Query) : Action (option (list R) * option PgError.t) :=
  fault <- request ;;
  match fault with
  | Some e => ret (None, Some e)
  | None =>
      w <- get ;;
      ret (Some (sorted T q (filter (matching T q) (rows T w))), None)
  end.

(** [from(t).select(...).single()]. *)
Definition select_single (q : Query) : Action (option R * option PgError.t) :=
  fault <- request ;;
  match fault with
  | Some e => ret (None, Some e)
  | None =>
      w <- get ;;
      match filter (matching T q) (rows T w) with
      | [r] => ret (Some r, None)
      | _ => ret (None, Some no_rows)
      end
  end.

(** [from(t).insert([row])]: the store completes the row with the
    generated columns. *)
Definition insert (row : World -> R) : Action (option PgError.t) :=
  fault <- request ;;
  match fault with
  | Some e => ret (Some e)
  | None =>
      w <- get ;;
      put (with_serial (S (serial w)) (with_rows T (rows T w ++ [row w]) w)) ;;
      ret None
  end.

(** [from(t).update(patch)] on the rows the filters select. *)
Definition update (patch : R -> R) (q : Query) : Action (option PgError.t) :=
  fault <- request ;;
  match fault with
  | Some e => ret (Some e)
  | None =>
      w <- get ;;
      put (with_rows T
             (map (fun r => if matching T q r then patch r else r) (rows T w)) w) ;;
      ret None
  end.

(** [from(t).delete()] on the rows the filters select. *)
Definition delete (q : Query) : Action (option PgError.t) :=
  fault <- request ;;
  match fault with
  | Some e => ret (Some e)
  | None =>
      w <- get ;;
      put (with_rows T (filter (fun r => negb (matching T q r)) (rows T w)) w) ;;
      ret None
  end.
End Operations.

Definition Polls : Table Poll.t :=
  {| col := Poll.col; rows := polls; with_rows := with_polls |}.

Definition Votes : Table Vote.t :=
  {| col := Vote.col; rows := votes; with_rows := with_votes |}.

End Store.

(** ** The identity provider client *)

Module Auth.

Definition send (r : IdpRequest) : Action unit :=
  modify (fun w => with_idp_requests (idp_requests w ++ [r]) w) ;; ret tt.

(** [supabase.auth.signInWithPassword]: on success the session is
    established. *)
Definition signInWithPassword (email password : Js.str) : Action (option AuthError.t) :=
  send (SignIn email password) ;;
  w <- get ;;
  match signInWithPassword (idp w) email password with
  | inl user => put (with_session (Some user) w) ;; ret None
  | inr e => ret (Some e)
  end.

(** [supabase.auth.signUp] *)
Definition signUp (email password : Js.str) (data : User.metadata)
  : Action (option AuthError.t) :=
  send (SignUp email password data) ;;
  w <- get ;;
  ret (signUp (idp w) email password data).

(** [supabase.auth.signOut] *)
Definition signOut : Action (option AuthError.t) :=
  send SignOut ;;
  w <- get ;;
  match signOut (idp w) with
  | None => put (with_session None w) ;; ret None
  | Some e => ret (Some e)
  end.

(** [supabase.auth.getUser]: [data.user] and [error]. *)
Definition getUser : Action (option User.t * option AuthError.t) :=
  send GetUser ;;
  w <- get ;;
  ret (session w, session_error w).

End Auth.

(** ** Payloads

    Every action returns an object with an [error] field that is a string
    or [null]; the listing and lookup actions add their data. *)

Module Res.
Record t := { error : option Js.str }.
End Res.

Module PollsRes.
Record t := { polls : list Poll.t; error : option Js.str }.
End PollsRes.

Module PollRes.
Record t := { poll : option Poll.t; error : option Js.str }.
End PollRes.

(** ** [app/lib/actions/auth-actions.ts] *)

Module AuthActions.

Import Regex.

(** Modelled from the spec: the form types of [../types] are not in the
    sources; the fields are those the actions read. *)
Record LoginFormData := { email : Js.str; password : Js.str }.

Record RegisterFormData := {
  reg_email : Js.str;
  reg_password : Js.str;
  reg_name : Js.str
}.

(** [[^\s@]] *)
Definition not_space_or_at (c : N) : bool :=
  negb (space c || N.eqb c (N_of_ascii "@")).

(** [/^[^\s@]+@[^\s@]+\.[^\s@]+$/] *)
Definition emailRegex : Regex.t :=
  Cat (plus (Cls not_space_or_at))
    (Cat (Cls (N.eqb (N_of_ascii "@")))
       (Cat (plus (Cls not_space_or_at))
          (Cat (Cls (N.eqb (N_of_ascii ".")))
             (plus (Cls not_space_or_at))))).

Definition isValidEmail (email : Js.str) : bool :=
  matches emailRegex email.

(** The punctuation class of the password pattern; the double quote is
    given by its code. *)
Definition symbol : N -> bool :=
  Js.one_of (js:"!@#$%^&*()_+={}[]:;" ++ [34%N] ++ js:"'<>,.?/~`").

(** [/^(?=.*[a-z])(?=.*[A-Z])(?=.*\d)(?=.*[...]).{8,}$/] *)
Definition strongPasswordRegex : Regex.t :=
  lookahead (Cat (Star (Cls dot)) (Cls lower))
    (lookahead (Cat (Star (Cls dot)) (Cls upper))
       (lookahead (Cat (Star (Cls dot)) (Cls digit))
          (lookahead (Cat (Star (Cls dot)) (Cls symbol))
             (at_least 8 (Cls dot))))).

Definition isStrongPassword (password : Js.str) : bool :=
  matches strongPasswordRegex password.

Definition login (data : LoginFormData) : Action Res.t :=
  if negb (isValidEmail (email data)) || negb (isStrongPassword (password data))
  then ret {| Res.error := Some js:"Invalid credentials." |}
  else
    error <- Auth.signInWithPassword (email data) (password data) ;;
    match error with
    | Some _ =>
        (* a generic message, to prevent user enumeration *)
        ret {| Res.error := Some js:"Invalid credentials." |}
    | None => ret {| Res.error := None |}
    end.

Definition register (data : RegisterFormData) : Action Res.t :=
  if negb (isValidEmail (reg_email data))
  then ret {| Res.error := Some js:"Invalid email format." |}
  else if negb (isStrongPassword (reg_password data))
  then ret {| Res.error := Some js:"Password must be at least 8 characters long and include an uppercase letter, a lowercase letter, a number, and a special character." |}
  else
    error <- Auth.signUp (reg_email data) (reg_password data)
               {| User.name := Some (reg_name data);
                  User.is_admin := Some false |} ;;
    match error with
    | Some _ => ret {| Res.error := Some js:"Registration failed." |}
    | None => ret {| Res.error := None |}
    end.

Definition logout : Action Res.t :=
  error <- Auth.signOut ;;
  match error with
  | Some e => ret {| Res.error := Some (AuthError.message e) |}
  | None => ret {| Res.error := None |}
  end.

Definition getCurrentUser : Action (option User.t) :=
  '(user, _) <- Auth.getUser ;;
  ret user.

End AuthActions.

(** ** [app/lib/actions/poll-actions.ts] *)

(** The form data of the presentation layer: a bag of string fields in
    which a key may repeat. *)
Module FormData.
Definition t := list (string * Js.str).

(** [formData.get(k)]: the first value under [k], or [null]. *)
Fixpoint get (k : string) (fd : t) : option Js.str :=
  match fd with
  | [] => None
  | (k', v) :: fd' => if String.eqb k k' then Some v else get k fd'
  end.

(** [formData.getAll(k)]: every value under [k], in order. *)
Fixpoint getAll (k : string) (fd : t) : list Js.str :=
  match fd with
  | [] => []
  | (k', v) :: fd' =>
      if String.eqb k k' then v :: getAll k fd' else getAll k fd'
  end.
End FormData.

Notation "q |> f" := (f q) (at level 45, left associativity, only parsing).

Module PollActions.

Import Store.

Definition MAX_QUESTION_LENGTH : nat := 255.
Definition MAX_OPTION_LENGTH : nat := 100.
Definition MAX_OPTIONS_COUNT : nat := 10.

(** [revalidatePath] of the framework: the listing view is marked
    stale. *)
Definition revalidatePath (path : Js.str) : Action unit :=
  modify (fun w => with_revalidated (revalidated w ++ [path]) w) ;; ret tt.

Section Sanitizer.

(** [DOMPurify.sanitize]: a pure function of the value it is given,
    which is a string or, for a missing form field, [null]. *)
Variable sanitize : option Js.str -> Js.str.

Definition createPoll (formData : FormData.t) : Action Res.t :=
  let question := FormData.get "question" formData in
  let options := filter Js.truthy (FormData.getAll "options" formData) in
  (* Sanitize and validate input *)
  let question := sanitize question in
  let options := map (fun option => sanitize (Some option)) options in
  if negb (Js.truthy question) || (List.length options <? 2) then
    ret {| Res.error := Some js:"Please provide a question and at least two options." |}
  else if MAX_QUESTION_LENGTH <? List.length question then
    ret {| Res.error := Some (js:"Question exceeds maximum length of "
                                ++ Js.of_nat MAX_QUESTION_LENGTH
                                ++ js:" characters.") |}
  else if MAX_OPTIONS_COUNT <? List.length options then
    ret {| Res.error := Some (js:"A poll cannot have more than "
                                ++ Js.of_nat MAX_OPTIONS_COUNT
                                ++ js:" options.") |}
  else if existsb (fun option => MAX_OPTION_LENGTH <? List.length option) options then
    ret {| Res.error := Some (js:"One or more options exceed maximum length of "
                                ++ Js.of_nat MAX_OPTION_LENGTH
                                ++ js:" characters.") |}
  else
    (* Get user from session *)
    '(user, userError) <- Auth.getUser ;;
    match userError, user with
    | Some e, _ => ret {| Res.error := Some (AuthError.message e) |}
    | None, None =>
        ret {| Res.error := Some js:"You must be logged in to create a poll." |}
    | None, Some user =>
        error <- insert Polls (fun w =>
                   {| Poll.id := uuid w (serial w);
                      Poll.user_id := User.id user;
                      Poll.question := question;
                      Poll.options := options;
                      Poll.is_public := is_public_default w;
                      Poll.created_at := serial w |}) ;;
        match error with
        | Some e => ret {| Res.error := Some (PgError.message e) |}
        | None =>
            revalidatePath js:"/polls" ;;
            ret {| Res.error := None |}
        end
    end.

Definition updatePoll (pollId : Js.str) (formData : FormData.t) : Action Res.t :=
  let question := FormData.get "question" formData in
  let options := filter Js.truthy (FormData.getAll "options" formData) in
  (* Sanitize and validate input *)
  let question := sanitize question in
  let options := map (fun option => sanitize (Some option)) options in
  if negb (Js.truthy question) || (List.length options <? 2) then
    ret {| Res.error := Some js:"Please provide a question and at least two options." |}
  else if MAX_QUESTION_LENGTH <? List.length question then
    ret {| Res.error := Some (js:"Question exceeds maximum length of "
                                ++ Js.of_nat MAX_QUESTION_LENGTH
                                ++ js:" characters.") |}
  else if MAX_OPTIONS_COUNT <? List.length options then
    ret {| Res.error := Some (js:"A poll cannot have more than "
                                ++ Js.of_nat MAX_OPTIONS_COUNT
                                ++ js:" options.") |}
  else if existsb (fun option => MAX_OPTION_LENGTH <? List.length option) options then
    ret {| Res.error := Some (js:"One or more options exceed maximum length of "
                                ++ Js.of_nat MAX_OPTION_LENGTH
                                ++ js:" characters.") |}
  else
    (* Get user from session *)
    '(user, userError) <- Auth.getUser ;;
    match userError, user with
    | Some e, _ => ret {| Res.error := Some (AuthError.message e) |}
    | None, None =>
        ret {| Res.error := Some js:"You must be logged in to update a poll." |}
    | None, Some user =>
        (* Only allow updating polls owned by the user *)
        error <- update Polls
                   (fun p =>
                      {| Poll.id := Poll.id p;
                         Poll.user_id := Poll.user_id p;
                         Poll.question := question;
                         Poll.options := options;
                         Poll.is_public := Poll.is_public p;
                         Poll.created_at := Poll.created_at p |})
                   (all |> eq "id" (VStr pollId)
                        |> eq "user_id" (VStr (User.id user))) ;;
        match error with
        | Some e => ret {| Res.error := Some (PgError.message e) |}
        | None => ret {| Res.error := None |}
        end
    end.

End Sanitizer.

Definition getUserPolls : Action PollsRes.t :=
  '(user, _) <- Auth.getUser ;;
  match user with
  | None =>
      ret {| PollsRes.polls := []; PollsRes.error := Some js:"Not authenticated" |}
  | Some user =>
      '(data, error) <- select Polls
                          (all |> eq "user_id" (VStr (User.id user))
                               |> order "created_at" false) ;;
      match error with
      | Some e =>
          ret {| PollsRes.polls := []; PollsRes.error := Some (PgError.message e) |}
      | None =>
          ret {| PollsRes.polls := match data with Some l => l | None => [] end;
                 PollsRes.error := None |}
      end
  end.

Definition getAdminPolls : Action PollsRes.t :=
  user <- AuthActions.getCurrentUser ;;
  match user with
  | Some user =>
      if negb (User.is_admin_truthy user) then
        ret {| PollsRes.polls := []; PollsRes.error := Some js:"Unauthorized access." |}
      else
        '(data, error) <- select Polls (all |> order "created_at" false) ;;
        match error with
        | Some e =>
            ret {| PollsRes.polls := []; PollsRes.error := Some (PgError.message e) |}
        | None =>
            ret {| PollsRes.polls := match data with Some l => l | None => [] end;
                   PollsRes.error := None |}
        end
  | None =>
      ret {| PollsRes.polls := []; PollsRes.error := Some js:"Unauthorized access." |}
  end.

(** The filters of the lookup are chosen by the class of the caller; the
    source asks for [single()] first and adds the filter afterwards, the
    request is sent when the query is awaited. *)
Definition getPollById (id : Js.str) : Action PollRes.t :=
  user <- AuthActions.getCurrentUser ;;
  let query := all |> eq "id" (VStr id) in
  let query :=
    match user with
    | Some user =>
        let isAdmin := User.is_admin_strict user in
        (* If not an admin, restrict access to their own polls *)
        if negb isAdmin then
          query |> or_ (Eq "user_id" (VStr (User.id user)))
                       (Eq "is_public" (VBool true))
        else query
    | None =>
        (* If no user is logged in, only allow access to public polls *)
        query |> eq "is_public" (VBool true)
    end in
  '(data, error) <- select_single Polls query ;;
  match error with
  | Some e => ret {| PollRes.poll := None; PollRes.error := Some (PgError.message e) |}
  | None => ret {| PollRes.poll := data; PollRes.error := None |}
  end.

Definition submitVote (pollId : Js.str) (optionIndex : Z) : Action Res.t :=
  '(user, _) <- Auth.getUser ;;
  let cast : Action Res.t :=
    error <- insert Votes (fun w =>
               {| Vote.id := uuid w (serial w);
                  Vote.poll_id := pollId;
                  Vote.user_id := option_map User.id user;
                  Vote.option_index := optionIndex;
                  Vote.created_at := serial w |}) ;;
    match error with
    | Some e => ret {| Res.error := Some (PgError.message e) |}
    | None => ret {| Res.error := None |}
    end in
  (* Prevent authenticated users from voting multiple times on the same poll *)
  match user with
  | Some u =>
      '(existingVote, voteError) <-
        select_single Votes (all |> eq "poll_id" (VStr pollId)
                                 |> eq "user_id" (VStr (User.id u))) ;;
      match voteError with
      | Some e =>
          if negb (Js.eqb (PgError.code e) js:"PGRST116") then
            ret {| Res.error := Some (PgError.message e) |}
          else
            match existingVote with
            | Some _ => ret {| Res.error := Some js:"You have already voted on this poll." |}
            | None => cast
            end
      | None =>
          match existingVote with
          | Some _ => ret {| Res.error := Some js:"You have already voted on this poll." |}
          | None => cast
          end
      end
  | None => cast
  end.

Definition deletePoll (id : Js.str) : Action Res.t :=
  user <- AuthActions.getCurrentUser ;;
  match user with
  | None => ret {| Res.error := Some js:"You must be logged in to delete a poll." |}
  | Some user =>
      (* Check if the user is an admin *)
      let isAdmin := User.is_admin_strict user in
      let query := all |> eq "id" (VStr id) in
      (* If not an admin, restrict deletion to their own polls *)
      let query :=
        if negb isAdmin then query |> eq "user_id" (VStr (User.id user))
        else query in
      error <- delete Polls query ;;
      match error with
      | Some e => ret {| Res.error := Some (PgError.message e) |}
      | None =>
          revalidatePath js:"/polls" ;;
          ret {| Res.error := None |}
      end
  end.

End PollActions.

(** ** The policy in the words of the specification

    The predicates the specification uses to say who may do what, and the
    conditions on the collaborators under which it speaks. *)

Module Policy.

(** Who may read a poll: anybody when it is public, else its owner and
    the administrators. *)
Definition canRead (caller : option User.t) (p : Poll.t) : bool :=
  Poll.is_public p
  || match caller with
     | Some u => Js.eqb (Poll.user_id p) (User.id u) || User.is_admin_strict u
     | None => false
     end.

(** Who may delete a poll: its owner and the administrators. *)
Definition canDelete (caller : User.t) (p : Poll.t) : bool :=
  Js.eqb (Poll.user_id p) (User.id caller) || User.is_admin_strict caller.

(** The one payload of a refused [login]. *)
Definition invalid_credentials : Res.t :=
  {| Res.error := Some js:"Invalid credentials." |}.

(** The payloads of the actions that only report. *)
Definition rejected (m : Js.str) : Res.t := {| Res.error := Some m |}.
Definition accepted : Res.t := {| Res.error := None |}.

(** The messages of the validation, with the limits written out. *)
Definition incomplete_message : Js.str :=
  js:"Please provide a question and at least two options.".
Definition question_too_long_message : Js.str :=
  js:"Question exceeds maximum length of 255 characters.".
Definition too_many_options_message : Js.str :=
  js:"A poll cannot have more than 10 options.".
Definition option_too_long_message : Js.str :=
  js:"One or more options exceed maximum length of 100 characters.".

Definition login_to_create : Js.str :=
  js:"You must be logged in to create a poll.".
Definition login_to_update : Js.str :=
  js:"You must be logged in to update a poll.".

(** The two payloads of a lookup. *)
Definition found (p : Poll.t) : PollRes.t :=
  {| PollRes.poll := Some p; PollRes.error := None |}.

Definition not_found : PollRes.t :=
  {| PollRes.poll := None;
     PollRes.error := Some (PgError.message Store.no_rows) |}.

(** The store serves the coming request. *)
Definition served (w : World) : Prop :=
  match upstream w with
  | Some _ :: _ => False
  | _ => True
  end.

(** The store serves every coming request. *)
Definition healthy (w : World) : Prop :=
  Forall (fun o => o = None) (upstream w).

(** The world once the store has answered a request. *)
Definition answered (w : World) : World :=
  with_upstream (tl (upstream w)) w.

(** The world once the provider has been sent a request. *)
Definition asked (r : IdpRequest) (w : World) : World :=
  with_idp_requests (idp_requests w ++ [r]) w.

Definition already_voted : Js.str := js:"You have already voted on this poll.".

(** The row [submitVote] asks the store to insert. *)
Definition new_vote (pollId : Js.str) (user : option User.t) (optionIndex : Z)
    (w : World) : Vote.t :=
  {| Vote.id := uuid w (serial w);
     Vote.poll_id := pollId;
     Vote.user_id := option_map User.id user;
     Vote.option_index := optionIndex;
     Vote.created_at := serial w |}.

(** The outcome of the insertion that ends [submitVote]. *)
Definition cast_vote (pollId : Js.str) (user : option User.t) (optionIndex : Z)
    (w : World) : Res.t * World :=
  match upstream w with
  | Some e :: rest => (rejected (PgError.message e), with_upstream rest w)
  | _ =>
      (accepted,
       with_serial (S (serial w))
         (with_votes (votes w ++ [new_vote pollId user optionIndex w])
            (answered w)))
  end.

(** [id] is the primary key of [polls]. *)
Definition primary_key (l : list Poll.t) : Prop :=
  NoDup (map Poll.id l).

(** The votes of a user on a poll. *)
Definition cast_by (pollId userId : Js.str) (v : Vote.t) : bool :=
  Js.eqb (Vote.poll_id v) pollId
  && match Vote.user_id v with
     | Some u => Js.eqb u userId
     | None => false
     end.

Definition ballots (pollId userId : Js.str) (l : list Vote.t) : list Vote.t :=
  filter (cast_by pollId userId) l.

(** The invariant of the data model: at most one vote of a user on a
    poll. *)
Definition one_vote_each (l : list Vote.t) : Prop :=
  forall pollId userId, List.length (ballots pollId userId l) <= 1.

(** Running an action [n] times in a row, collecting the payloads. *)
Fixpoint replay {A} (n : nat) (a : Action A) : Action (list A) :=
  match n with
  | O => ret []
  | S n' => x <- a ;; xs <- replay n' a ;; ret (x :: xs)
  end.

Section Input.
Variable sanitize : option Js.str -> Js.str.

(** The question and the options the validation looks at. *)
Definition question_of (fd : FormData.t) : Js.str :=
  sanitize (FormData.get "question" fd).

Definition options_of (fd : FormData.t) : list Js.str :=
  map (fun o => sanitize (Some o))
    (filter Js.truthy (FormData.getAll "options" fd)).

(** The five conditions of rejection. *)
Definition no_question (fd : FormData.t) : Prop := question_of fd = [].
Definition too_few_options (fd : FormData.t) : Prop :=
  List.length (options_of fd) < 2.
Definition question_too_long (fd : FormData.t) : Prop :=
  255 < List.length (question_of fd).
Definition too_many_options (fd : FormData.t) : Prop :=
  10 < List.length (options_of fd).
Definition option_too_long (fd : FormData.t) : Prop :=
  Exists (fun o => 100 < List.length o) (options_of fd).

Definition valid_input (fd : FormData.t) : Prop :=
  ~ no_question fd /\ ~ too_few_options fd /\ ~ question_too_long fd
  /\ ~ too_many_options fd /\ ~ option_too_long fd.

(** The four tests of the source, on the sanitized input. *)
Definition test1 (fd : FormData.t) : bool :=
  negb (Js.truthy (question_of fd))
  || (List.length (options_of fd) <? 2).
Definition test2 (fd : FormData.t) : bool :=
  PollActions.MAX_QUESTION_LENGTH <? List.length (question_of fd).
Definition test3 (fd : FormData.t) : bool :=
  PollActions.MAX_OPTIONS_COUNT <? List.length (options_of fd).
Definition test4 (fd : FormData.t) : bool :=
  existsb (fun o => PollActions.MAX_OPTION_LENGTH <? List.length o)
    (options_of fd).
End Input.

End Policy.

(** ** Sample data

    A provider with one account, a sanitizer that drops tags, and a store
    with a private and a public poll; the concrete runs below use them. *)

Module Sample.

Definition user (id email name : string) (admin : option bool) : User.t :=
  {| User.id := js:id; User.email := js:email;
     User.user_metadata := {| User.name := Some js:name; User.is_admin := admin |} |}.

Definition alice : User.t := user "u-alice" "alice@example.com" "Alice" (Some false).
Definition bob : User.t := user "u-bob" "bob@example.com" "Bob" None.
Definition root : User.t := user "u-root" "root@example.com" "Root" (Some true).

(** A provider that tells a wrong password from an unknown email. *)
Definition directory : Provider :=
  {| signInWithPassword := fun email password =>
       if Js.eqb email (User.email alice) then
         if Js.eqb password js:"Correct.h0rse" then inl alice
         else inr {| AuthError.message := js:"wrong password" |}
       else inr {| AuthError.message := js:"no such user" |};
     signUp := fun _ _ _ => None;
     signOut := None |}.

(** Two logins the provider refuses, for different reasons. *)
Definition wrong_password : AuthActions.LoginFormData :=
  {| AuthActions.email := js:"alice@example.com";
     AuthActions.password := js:"Wr0ng.horse" |}.

Definition unknown_email : AuthActions.LoginFormData :=
  {| AuthActions.email := js:"mallory@example.com";
     AuthActions.password := js:"Wr0ng.horse" |}.

(** Drops everything between [<] and [>]. *)
Fixpoint drop_tags (inside : bool) (s : Js.str) : Js.str :=
  match s with
  | [] => []
  | c :: s' =>
      if N.eqb c (N_of_ascii "<") then drop_tags true s'
      else if N.eqb c (N_of_ascii ">") then drop_tags false s'
      else if inside then drop_tags inside s'
      else c :: drop_tags inside s'
  end.

Definition strip (v : option Js.str) : Js.str :=
  match v with
  | None => []
  | Some s => drop_tags false s
  end.

Definition secret : Poll.t :=
  {| Poll.id := js:"p-1"; Poll.user_id := js:"u-alice";
     Poll.question := js:"Tea or coffee?";
     Poll.options := [js:"Tea"; js:"Coffee"];
     Poll.is_public := false; Poll.created_at := 0 |}.

Definition open : Poll.t :=
  {| Poll.id := js:"p-2"; Poll.user_id := js:"u-bob";
     Poll.question := js:"Cats or dogs?";
     Poll.options := [js:"Cats"; js:"Dogs"; js:"Both"];
     Poll.is_public := true; Poll.created_at := 1 |}.

Definition ballot : Vote.t :=
  {| Vote.id := js:"v-1"; Vote.poll_id := js:"p-2";
     Vote.user_id := Some js:"u-alice"; Vote.option_index := 0%Z;
     Vote.created_at := 2 |}.

(** A failure of the store that is not the no-rows error. *)
Definition outage : PgError.t :=
  {| PgError.message := js:"connection lost"; PgError.code := js:"08006" |}.

(** Nobody is signed in. *)
Definition world : World :=
  {| idp := directory; idp_requests := [];
     session := None; session_error := None;
     polls := [secret; open]; votes := [ballot];
     upstream := []; serial := 3;
     uuid := fun n => js:"row-" ++ Js.of_nat n;
     is_public_default := false;
     revalidated := [] |}.

Definition signed_in (u : User.t) : World := with_session (Some u) world.



(** A text of [n] letters. *)
Definition letters (n : nat) : Js.str := repeat (N_of_ascii "a") n.

Definition long_form (n : nat) (options : list Js.str) : FormData.t :=
  ("question"%string, letters n)
    :: map (fun o => ("options"%string, o)) options.

End Sample.

(** ** Further notions

    What the properties of the remaining code are stated with: the strings
    a pattern stands for, the payloads and rows of the actions not named
    so far, and some more sample data. *)

Module Notions.

Import Regex AuthActions Store PollActions Policy.

(** The strings a pattern stands for. *)
Inductive denotes : Regex.t -> Js.str -> Prop :=
| den_eps : denotes Eps []
| den_cls p c : p c = true -> denotes (Cls p) [c]
| den_cat a b s t : denotes a s -> denotes b t -> denotes (Cat a b) (s ++ t)
| den_alt_l a b s : denotes a s -> denotes (Alt a b) s
| den_alt_r a b s : denotes b s -> denotes (Alt a b) s
| den_and a b s : denotes a s -> denotes b s -> denotes (And a b) s
| den_star_nil a : denotes (Star a) []
| den_star_more a s t :
    denotes a s -> denotes (Star a) t -> denotes (Star a) (s ++ t).

Definition weak_password_message : Js.str :=
  js:"Password must be at least 8 characters long and include an uppercase letter, a lowercase letter, a number, and a special character.".

(** The metadata [register] attaches to a new account. *)
Definition new_account (name : Js.str) : User.metadata :=
  {| User.name := Some name; User.is_admin := Some false |}.

(** A provider that refuses everything. *)
Definition closed : Provider :=
  {| signInWithPassword := fun _ _ =>
       inr {| AuthError.message := js:"service unavailable" |};
     signUp := fun _ _ _ => Some {| AuthError.message := js:"email taken" |};
     signOut := Some {| AuthError.message := js:"network error" |} |}.

Definition with_idp (p : Provider) (w : World) : World :=
  {| idp := p; idp_requests := idp_requests w; session := session w;
     session_error := session_error w; polls := polls w; votes := votes w;
     upstream := upstream w; serial := serial w; uuid := uuid w;
     is_public_default := is_public_default w; revalidated := revalidated w |}.

Definition signup_form : RegisterFormData :=
  {| reg_email := js:"carol@example.com"; reg_password := js:"Correct.h0rse";
     reg_name := js:"Carol" |}.

(** The rows a caller owns. *)
Definition owned_by (userId : Js.str) (p : Poll.t) : bool :=
  Js.eqb (Poll.user_id p) userId.

(** Newest first: nothing is followed by a younger row. *)
Definition not_older (a b : Poll.t) : Prop :=
  Poll.created_at b <= Poll.created_at a.

Definition newest_first (l : list Poll.t) : Prop := StronglySorted not_older l.

(** The listing of a table, newest first. *)
Definition listing (l : list Poll.t) : list Poll.t :=
  fold_right (place Polls "created_at" false) [] l.

Definition unauthorized : PollsRes.t :=
  {| PollsRes.polls := []; PollsRes.error := Some js:"Unauthorized access." |}.

Definition not_authenticated : PollsRes.t :=
  {| PollsRes.polls := []; PollsRes.error := Some js:"Not authenticated" |}.

Definition listed (l : list Poll.t) : PollsRes.t :=
  {| PollsRes.polls := l; PollsRes.error := None |}.

Definition failed_listing (e : PgError.t) : PollsRes.t :=
  {| PollsRes.polls := []; PollsRes.error := Some (PgError.message e) |}.

Definition login_to_delete : Js.str :=
  js:"You must be logged in to delete a poll.".

(** The filter [getPollById] adds for the class of the caller. *)
Definition visible_to (caller : option User.t) (p : Poll.t) : bool :=
  match caller with
  | Some u =>
      if User.is_admin_strict u then true
      else Js.eqb (Poll.user_id p) (User.id u) || Bool.eqb (Poll.is_public p) true
  | None => Bool.eqb (Poll.is_public p) true
  end.

(** The row [createPoll] asks the store to insert. *)
Definition new_poll (sanitize : option Js.str -> Js.str) (fd : FormData.t)
    (u : User.t) (w : World) : Poll.t :=
  {| Poll.id := uuid w (serial w);
     Poll.user_id := User.id u;
     Poll.question := question_of sanitize fd;
     Poll.options := options_of sanitize fd;
     Poll.is_public := is_public_default w;
     Poll.created_at := serial w |}.

(** A row after [updatePoll] has rewritten it. *)
Definition rewritten (sanitize : option Js.str -> Js.str) (fd : FormData.t)
    (p : Poll.t) : Poll.t :=
  {| Poll.id := Poll.id p;
     Poll.user_id := Poll.user_id p;
     Poll.question := question_of sanitize fd;
     Poll.options := options_of sanitize fd;
     Poll.is_public := Poll.is_public p;
     Poll.created_at := Poll.created_at p |}.

(** The invariant of a poll in the data model. *)
Definition well_formed (p : Poll.t) : Prop :=
  Poll.question p <> []
  /\ List.length (Poll.question p) <= 255
  /\ 2 <= List.length (Poll.options p) <= 10
  /\ Forall (fun o => List.length o <= 100) (Poll.options p).

(** A second vote of the same user on the same poll, as two submissions
    that both passed the check before either insertion leave it behind;
    and the world in which that user is signed in. *)
Definition second_ballot : Vote.t :=
  {| Vote.id := js:"v-2"; Vote.poll_id := js:"p-2";
     Vote.user_id := Some js:"u-alice"; Vote.option_index := 1%Z;
     Vote.created_at := 3 |}.

Definition voted_twice : World :=
  with_votes [Sample.ballot; second_ballot] (Sample.signed_in Sample.alice).

Definition with_session_error (e : option AuthError.t) (w : World) : World :=
  {| idp := idp w; idp_requests := idp_requests w; session := session w;
     session_error := e; polls := polls w; votes := votes w;
     upstream := upstream w; serial := serial w; uuid := uuid w;
     is_public_default := is_public_default w; revalidated := revalidated w |}.

End Notions.

(** * Properties of [auth-actions.ts] *)

Module AuthProps.

Import AuthActions Policy.

(** ** The two patterns on sample inputs *)

Example emails_accepted :
  map isValidEmail [js:"a@b.co"; js:"first.last@mail.example.org"]
  = [true; true].
Proof. vm_compute. reflexivity. Qed.

Example emails_refused :
  map isValidEmail
    [js:"a@b"; js:"a b@c.de"; js:"a@b@c.de"; js:"@b.c"; js:"a@.c"; js:"a@b."]
  = [false; false; false; false; false; false].
Proof. vm_compute. reflexivity. Qed.

Example passwords_accepted :
  map isStrongPassword [js:"Abcdef1!"; js:"Correct.h0rse"] = [true; true].
Proof. vm_compute. reflexivity. Qed.

(** Too short, no upper case, no lower case, no digit, no symbol of the
    class (the hyphen is not one), and a line feed inside. *)
Example passwords_refused :
  map isStrongPassword
    [js:"Abcde1!"; js:"abcdef1!"; js:"ABCDEF1!"; js:"Abcdefg!"; js:"Abcdefg1-";
     js:"Abcdef1!" ++ [10%N]]
  = [false; false; false; false; false; false].
Proof. vm_compute. reflexivity. Qed.

(** What [login] does, path by path. *)
Lemma login_rejected w d :
  isValidEmail (email d) = false \/ isStrongPassword (password d) = false ->
  run (login d) w = (invalid_credentials, w).
Proof.
  intros H. unfold login.
  destruct H as [H | H]; rewrite H; simpl; [reflexivity |].
  rewrite orb_true_r. reflexivity.
Qed.

Lemma login_provider_failure w d e :
  isValidEmail (email d) = true ->
  isStrongPassword (password d) = true ->
  signInWithPassword (idp w) (email d) (password d) = inr e ->
  run (login d) w =
    (invalid_credentials,
     with_idp_requests (idp_requests w ++ [SignIn (email d) (password d)]) w).
Proof.
  intros He Hp Hs. unfold login, run. rewrite He, Hp. cbn.
  rewrite Hs. reflexivity.
Qed.

Lemma login_success w d u :
  isValidEmail (email d) = true ->
  isStrongPassword (password d) = true ->
  signInWithPassword (idp w) (email d) (password d) = inl u ->
  run (login d) w =
    ({| Res.error := None |},
     with_session (Some u)
       (with_idp_requests (idp_requests w ++ [SignIn (email d) (password d)]) w)).
Proof.
  intros He Hp Hs. unfold login, run. rewrite He, Hp. cbn.
  rewrite Hs. reflexivity.
Qed.

(** C5.  Two logins whose inputs pass the format and strength checks and
    which the identity provider refuses, for whatever reasons and with
    whatever provider errors, return the same payload: the generic
    [{error: "Invalid credentials."}]. *)
Theorem login_failures_indistinguishable w1 w2 d1 d2 e1 e2 :
  isValidEmail (email d1) = true -> isStrongPassword (password d1) = true ->
  isValidEmail (email d2) = true -> isStrongPassword (password d2) = true ->
  signInWithPassword (idp w1) (email d1) (password d1) = inr e1 ->
  signInWithPassword (idp w2) (email d2) (password d2) = inr e2 ->
  result (login d1) w1 = result (login d2) w2 /\
  result (login d1) w1 = {| Res.error := Some js:"Invalid credentials." |}.
Proof.
  intros V1 S1 V2 S2 F1 F2. unfold result.
  rewrite (login_provider_failure w1 d1 e1 V1 S1 F1).
  rewrite (login_provider_failure w2 d2 e2 V2 S2 F2).
  split; reflexivity.
Qed.

Lemma register_bad_email w d :
  isValidEmail (reg_email d) = false ->
  run (register d) w = ({| Res.error := Some js:"Invalid email format." |}, w).
Proof. intros H. unfold register. rewrite H. reflexivity. Qed.

(** C9.  An email that fails the format pattern makes [login] return
    [{error: "Invalid credentials."}] and [register] return
    [{error: "Invalid email format."}]; so does, for [login], a password
    that fails the strength pattern.  The world is left as it was: no
    request reaches the identity provider, and the payload is the same
    whatever the provider would have answered. *)
Theorem invalid_input_never_reaches_provider w w' e p n :
  (isValidEmail e = false \/ isStrongPassword p = false ->
   run (login {| email := e; password := p |}) w
     = ({| Res.error := Some js:"Invalid credentials." |}, w) /\
   result (login {| email := e; password := p |}) w'
     = result (login {| email := e; password := p |}) w) /\
  (isValidEmail e = false ->
   run (register {| reg_email := e; reg_password := p; reg_name := n |}) w
     = ({| Res.error := Some js:"Invalid email format." |}, w) /\
   result (register {| reg_email := e; reg_password := p; reg_name := n |}) w'
     = result (register {| reg_email := e; reg_password := p; reg_name := n |}) w).
Proof.
  split; intros H.
  - unfold result. rewrite !login_rejected by exact H. split; reflexivity.
  - unfold result. rewrite !register_bad_email by exact H. split; reflexivity.
Qed.

(** ** Concrete runs *)

Lemma login_failures_indistinguishable_sample :
  signInWithPassword Sample.directory (email Sample.wrong_password)
      (password Sample.wrong_password)
    = inr {| AuthError.message := js:"wrong password" |}
  /\ signInWithPassword Sample.directory (email Sample.unknown_email)
        (password Sample.unknown_email)
      = inr {| AuthError.message := js:"no such user" |}
  /\ result (login Sample.wrong_password) Sample.world
      = result (login Sample.unknown_email) Sample.world
  /\ result (login Sample.wrong_password) Sample.world
      = {| Res.error := Some js:"Invalid credentials." |}.
Proof.
  split; [reflexivity |]. split; [reflexivity |].
  apply (login_failures_indistinguishable Sample.world Sample.world
           Sample.wrong_password Sample.unknown_email
           {| AuthError.message := js:"wrong password" |}
           {| AuthError.message := js:"no such user" |});
    vm_compute; reflexivity.
Defined.

Lemma invalid_input_never_reaches_provider_sample :
  run (login {| email := js:"alice.example.com"; password := js:"Correct.h0rse" |})
      Sample.world
    = ({| Res.error := Some js:"Invalid credentials." |}, Sample.world)
  /\ run (login {| email := js:"alice@example.com"; password := js:"horse" |})
        Sample.world
      = ({| Res.error := Some js:"Invalid credentials." |}, Sample.world)
  /\ run (register {| reg_email := js:"alice.example.com";
                      reg_password := js:"Correct.h0rse";
                      reg_name := js:"Alice" |}) Sample.world
      = ({| Res.error := Some js:"Invalid email format." |}, Sample.world).
Proof.
  split; [| split].
  - destruct (invalid_input_never_reaches_provider Sample.world Sample.world
                js:"alice.example.com" js:"Correct.h0rse" js:"Alice") as (A & _).
    apply A. left. vm_compute. reflexivity.
  - destruct (invalid_input_never_reaches_provider Sample.world Sample.world
                js:"alice@example.com" js:"horse" js:"Alice") as (A & _).
    apply A. right. vm_compute. reflexivity.
  - destruct (invalid_input_never_reaches_provider Sample.world Sample.world
                js:"alice.example.com" js:"Correct.h0rse" js:"Alice") as (_ & A).
    apply A. vm_compute. reflexivity.
Defined.

End AuthProps.


(** * Properties of [poll-actions.ts] *)

Module PollProps.

Import Store PollActions Policy.

(** ** Strings and filters *)

Lemma eqb_eq a b : Js.eqb a b = true <-> a = b.
Proof.
  revert b. induction a as [| x a IH]; intros [| y b]; simpl;
    try (split; [discriminate | discriminate]); try tauto.
  rewrite andb_true_iff, N.eqb_eq, IH. split.
  - intros [-> ->]. reflexivity.
  - intros H. injection H as -> ->. auto.
Qed.

Lemma eqb_refl a : Js.eqb a a = true.
Proof. apply eqb_eq. reflexivity. Qed.

Lemma eqb_neq a b : a <> b -> Js.eqb a b = false.
Proof.
  intros H. destruct (Js.eqb a b) eqn:E; [| reflexivity].
  apply eqb_eq in E. contradiction.
Qed.

(** ** One request to the store *)

Lemma request_served w :
  served w -> run request w = (None, answered w).
Proof.
  unfold served, run, request, answered. cbn.
  destruct w as [? ? ? ? ? ? up ? ? ? ?]; cbn.
  destruct up as [| [e |] rest]; cbn; intros H; [reflexivity | tauto | reflexivity].
Qed.

Lemma request_refused w e rest :
  upstream w = Some e :: rest ->
  run request w = (Some e, with_upstream rest w).
Proof.
  unfold run, request. cbn. intros ->. reflexivity.
Qed.

Lemma run_bind {A B} (a : Action A) (f : A -> Action B) w :
  run (x <- a ;; f x) w = let (x, w') := run a w in run (f x) w'.
Proof. reflexivity. Qed.

Section StoreRuns.
Context {R : Type} (T : Table R).

Lemma select_served q w :
  served w ->
  run (select T q) w
    = ((Some (sorted T q (filter (matching T q) (rows T (answered w)))), None),
       answered w).
Proof.
  intros H. unfold select. rewrite run_bind, request_served by exact H.
  reflexivity.
Qed.

Lemma select_single_served q w :
  served w ->
  run (select_single T q) w
    = (match filter (matching T q) (rows T (answered w)) with
       | [r] => (Some r, None)
       | _ => (None, Some no_rows)
       end, answered w).
Proof.
  intros H. unfold select_single. rewrite run_bind, request_served by exact H.
  cbn. destruct (filter _ _) as [| r [| r' l]]; reflexivity.
Qed.

Lemma select_single_refused q w e rest :
  upstream w = Some e :: rest ->
  run (select_single T q) w = ((None, Some e), with_upstream rest w).
Proof.
  intros H. unfold select_single.
  rewrite run_bind, (request_refused w e rest H). reflexivity.
Qed.

Lemma insert_served row w :
  served w ->
  run (insert T row) w
    = (None,
       with_serial (S (serial (answered w)))
         (with_rows T (rows T (answered w) ++ [row (answered w)]) (answered w))).
Proof.
  intros H. unfold insert. rewrite run_bind, request_served by exact H.
  reflexivity.
Qed.

Lemma insert_refused row w e rest :
  upstream w = Some e :: rest ->
  run (insert T row) w = (Some e, with_upstream rest w).
Proof.
  intros H. unfold insert.
  rewrite run_bind, (request_refused w e rest H). reflexivity.
Qed.

Lemma update_served patch q w :
  served w ->
  run (update T patch q) w
    = (None,
       with_rows T
         (map (fun r => if matching T q r then patch r else r)
            (rows T (answered w))) (answered w)).
Proof.
  intros H. unfold update. rewrite run_bind, request_served by exact H.
  reflexivity.
Qed.

Lemma delete_served q w :
  served w ->
  run (delete T q) w
    = (None,
       with_rows T
         (filter (fun r => negb (matching T q r)) (rows T (answered w)))
         (answered w)).
Proof.
  intros H. unfold delete. rewrite run_bind, request_served by exact H.
  reflexivity.
Qed.
End StoreRuns.

Lemma getUser_run w :
  run Auth.getUser w = ((session w, session_error w), asked GetUser w).
Proof. reflexivity. Qed.

Lemma getCurrentUser_run w :
  run AuthActions.getCurrentUser w = (session w, asked GetUser w).
Proof. reflexivity. Qed.

(** ** Rows under a primary key *)

Lemma filter_all {A} (f : A -> bool) l :
  (forall x, In x l -> f x = true) -> filter f l = l.
Proof.
  induction l as [| a l IH]; intros H; simpl; [reflexivity |].
  rewrite (H a (or_introl eq_refl)), IH; [reflexivity |].
  intros x Hx. apply H. right. exact Hx.
Qed.

Lemma filter_none {A} (f : A -> bool) l :
  (forall x, In x l -> f x = false) -> filter f l = [].
Proof.
  induction l as [| a l IH]; intros H; simpl; [reflexivity |].
  rewrite (H a (or_introl eq_refl)). apply IH.
  intros x Hx. apply H. right. exact Hx.
Qed.

Lemma primary_key_inj l r p :
  primary_key l -> In r l -> In p l -> Poll.id r = Poll.id p -> r = p.
Proof.
  unfold primary_key. induction l as [| a l IH]; simpl; [tauto |].
  intros N Hr Hp E. inversion N as [| ? ? Hn N']; subst.
  destruct Hr as [-> | Hr], Hp as [-> | Hp]; auto.
  - exfalso. apply Hn. rewrite E. apply in_map. exact Hp.
  - exfalso. apply Hn. rewrite <- E. apply in_map. exact Hr.
Qed.

(** Under the primary key, a filter on the [id] of a stored row selects
    that row alone, or nothing when the rest of the filter refuses it. *)
Lemma filter_by_id l p (rest : Poll.t -> bool) :
  primary_key l -> In p l ->
  filter (fun r => Js.eqb (Poll.id r) (Poll.id p) && rest r) l
    = if rest p then [p] else [].
Proof.
  unfold primary_key. induction l as [| a l IH]; simpl; [tauto |].
  intros N Hp. inversion N as [| ? ? Hn N']; subst.
  destruct Hp as [-> | Hp].
  - rewrite eqb_refl. simpl.
    replace (filter _ l) with (@nil Poll.t).
    + destruct (rest p); reflexivity.
    + symmetry. apply filter_none. intros x Hx.
      rewrite eqb_neq; [reflexivity |].
      intros E. apply Hn. rewrite <- E. apply in_map. exact Hx.
  - rewrite eqb_neq.
    + simpl. apply IH; assumption.
    + intros E. apply Hn. rewrite E. apply in_map. exact Hp.
Qed.

Lemma bool_eqb_true b : Bool.eqb b true = b.
Proof. destruct b; reflexivity. Qed.

Lemma getPollById_run w p :
  served w -> primary_key (polls w) -> In p (polls w) ->
  run (getPollById (Poll.id p)) w
    = (if canRead (session w) p then found p else not_found,
       answered (asked GetUser w)).
Proof.
  intros S K I. unfold getPollById.
  rewrite run_bind, getCurrentUser_run.
  rewrite run_bind, select_single_served by exact S.
  unfold canRead.
  destruct (session w) as [u |].
  - destruct (User.is_admin_strict u); cbn [negb].
    + change (filter _ _)
        with (filter (fun r => Js.eqb (Poll.id r) (Poll.id p) && true) (polls w)).
      rewrite (filter_by_id _ _ _ K I).
      rewrite orb_true_r, orb_true_r. reflexivity.
    + change (filter _ _)
        with (filter (fun r => Js.eqb (Poll.id r) (Poll.id p)
                               && ((Js.eqb (Poll.user_id r) (User.id u)
                                    || Bool.eqb (Poll.is_public r) true) && true))
                (polls w)).
      rewrite (filter_by_id _ _ _ K I).
      rewrite bool_eqb_true, andb_true_r, orb_false_r.
      rewrite (orb_comm (Poll.is_public p)).
      destruct (_ || _); reflexivity.
  - change (filter _ _)
      with (filter (fun r => Js.eqb (Poll.id r) (Poll.id p)
                             && (Bool.eqb (Poll.is_public r) true && true))
              (polls w)).
    rewrite (filter_by_id _ _ _ K I).
    rewrite bool_eqb_true, andb_true_r, orb_false_r.
    destruct (Poll.is_public p); reflexivity.
Qed.

Lemma deletePoll_run w u p :
  session w = Some u -> served w -> primary_key (polls w) -> In p (polls w) ->
  run (deletePoll (Poll.id p)) w
    = ({| Res.error := None |},
       with_revalidated (revalidated w ++ [js:"/polls"])
         (with_polls
            (if canDelete u p
             then filter (fun r => negb (Js.eqb (Poll.id r) (Poll.id p))) (polls w)
             else polls w)
            (answered (asked GetUser w)))).
Proof.
  intros Hs S K I. unfold deletePoll.
  rewrite run_bind, getCurrentUser_run, Hs.
  rewrite run_bind, delete_served by exact S.
  unfold canDelete.
  destruct (User.is_admin_strict u); cbn [negb].
  - rewrite orb_true_r.
    change (filter _ (rows Polls _))
      with (filter (fun r => negb (Js.eqb (Poll.id r) (Poll.id p) && true)) (polls w)).
    erewrite filter_ext; [reflexivity |].
    intros r. cbv beta. rewrite andb_true_r. reflexivity.
  - rewrite orb_false_r.
    change (filter _ (rows Polls _))
      with (filter (fun r => negb (Js.eqb (Poll.id r) (Poll.id p)
                                   && (Js.eqb (Poll.user_id r) (User.id u) && true)))
              (polls w)).
    destruct (Js.eqb (Poll.user_id p) (User.id u)) eqn:E.
    + erewrite filter_ext_in; [reflexivity |].
      intros r Hr. cbv beta. rewrite andb_true_r.
      destruct (Js.eqb (Poll.id r) (Poll.id p)) eqn:E'; [| reflexivity].
      apply eqb_eq in E'. rewrite (primary_key_inj _ _ _ K Hr I E'), E. reflexivity.
    + rewrite filter_all; [reflexivity |].
      intros r Hr. rewrite andb_true_r.
      destruct (Js.eqb (Poll.id r) (Poll.id p)) eqn:E'; [| reflexivity].
      apply eqb_eq in E'. rewrite (primary_key_inj _ _ _ K Hr I E'), E. reflexivity.
Qed.

Lemma sample_key : primary_key (polls Sample.world).
Proof.
  unfold primary_key. simpl.
  repeat constructor; simpl; intuition discriminate.
Qed.

(** ** [getUserPolls] *)

Lemma getUserPolls_unauthenticated_run w :
  session w = None ->
  run getUserPolls w
    = ({| PollsRes.polls := []; PollsRes.error := Some js:"Not authenticated" |},
       asked GetUser w).
Proof.
  intros H. unfold getUserPolls. rewrite run_bind, getUser_run, H. reflexivity.
Qed.

(** C1, as stated, fails: without a session the payload of
    [getUserPolls] has an empty list but its [error] is not [null]. *)
Lemma getUserPolls_unauthenticated_error_not_null :
  ~ (session Sample.world = None ->
     result getUserPolls Sample.world
       = {| PollsRes.polls := []; PollsRes.error := None |}).
Proof.
  intros H. specialize (H eq_refl). discriminate H.
Qed.

(** C1, amended.  Without a session [getUserPolls] returns an empty poll
    list together with the error ["Not authenticated"], and the store is
    not asked anything: only the provider's [getUser] was called. *)
Theorem getUserPolls_unauthenticated w :
  session w = None ->
  result getUserPolls w
    = {| PollsRes.polls := []; PollsRes.error := Some js:"Not authenticated" |}
  /\ after getUserPolls w = asked GetUser w.
Proof.
  intros H. unfold result, after.
  rewrite (getUserPolls_unauthenticated_run w H). split; reflexivity.
Qed.

Lemma getUserPolls_unauthenticated_sample :
  result getUserPolls Sample.world
    = {| PollsRes.polls := []; PollsRes.error := Some js:"Not authenticated" |}
  /\ after getUserPolls Sample.world = asked GetUser Sample.world.
Proof. exact (getUserPolls_unauthenticated Sample.world eq_refl). Defined.

(** ** [getPollById] *)

(** C3.  For a stored poll, with [id] the primary key of the table and a
    store that serves the request, [getPollById] returns the poll exactly
    when the caller may read it.  A public poll is returned to every caller.
    A private poll is not found for an anonymous caller and for a signed-in
    caller who is neither its owner nor an administrator; its owner and
    every administrator receive it. *)
Theorem getPollById_access w p :
  served w -> primary_key (polls w) -> In p (polls w) ->
  result (getPollById (Poll.id p)) w
    = (if canRead (session w) p then found p else not_found)
  /\ (Poll.is_public p = true ->
      result (getPollById (Poll.id p)) w = found p)
  /\ (Poll.is_public p = false ->
      (session w = None ->
       result (getPollById (Poll.id p)) w = not_found)
      /\ (forall u, session w = Some u ->
                    Poll.user_id p <> User.id u ->
                    User.is_admin (User.user_metadata u) <> Some true ->
                    result (getPollById (Poll.id p)) w = not_found)
      /\ (forall u, session w = Some u ->
                    Poll.user_id p = User.id u ->
                    result (getPollById (Poll.id p)) w = found p)
      /\ (forall u, session w = Some u ->
                    User.is_admin (User.user_metadata u) = Some true ->
                    result (getPollById (Poll.id p)) w = found p)).
Proof.
  intros S K I. unfold result. rewrite (getPollById_run w p S K I).
  cbn [fst]. unfold canRead. split; [reflexivity |]. split.
  - intros ->. reflexivity.
  - intros ->. cbn [orb]. repeat split.
    + intros ->. reflexivity.
    + intros u -> Ho Ha. rewrite (eqb_neq _ _ Ho). unfold User.is_admin_strict.
      destruct (User.is_admin (User.user_metadata u)) as [[|] |];
        [contradiction Ha |..]; reflexivity.
    + intros u -> Ho. rewrite Ho, eqb_refl. reflexivity.
    + intros u -> Ha. unfold User.is_admin_strict. rewrite Ha, orb_true_r.
      reflexivity.
Qed.

Lemma getPollById_access_sample :
  result (getPollById js:"p-1") Sample.world = not_found
  /\ result (getPollById js:"p-1") (Sample.signed_in Sample.bob) = not_found
  /\ result (getPollById js:"p-1") (Sample.signed_in Sample.alice)
      = found Sample.secret
  /\ result (getPollById js:"p-1") (Sample.signed_in Sample.root)
      = found Sample.secret
  /\ result (getPollById js:"p-2") Sample.world = found Sample.open.
Proof.
  pose proof (fun w => getPollById_access w Sample.secret) as H.
  split; [| split; [| split; [| split]]].
  - destruct (H Sample.world I sample_key (or_introl eq_refl)) as (_ & _ & P).
    destruct (P eq_refl) as (A & _).
    exact (A eq_refl).
  - destruct (H (Sample.signed_in Sample.bob) I sample_key (or_introl eq_refl))
      as (_ & _ & P).
    destruct (P eq_refl) as (_ & A & _).
    apply (A Sample.bob eq_refl); discriminate.
  - destruct (H (Sample.signed_in Sample.alice) I sample_key (or_introl eq_refl))
      as (_ & _ & P).
    destruct (P eq_refl) as (_ & _ & A & _).
    exact (A Sample.alice eq_refl eq_refl).
  - destruct (H (Sample.signed_in Sample.root) I sample_key (or_introl eq_refl))
      as (_ & _ & P).
    destruct (P eq_refl) as (_ & _ & _ & A).
    exact (A Sample.root eq_refl eq_refl).
  - destruct (getPollById_access Sample.world Sample.open I sample_key
                (or_intror (or_introl eq_refl))) as (_ & A & _).
    exact (A eq_refl).
Defined.

(** ** [deletePoll] *)

(** C4.  With [id] the primary key of the table and a store that serves
    the request, a signed-in caller who is neither the owner of a stored
    poll nor an administrator deletes nothing with [deletePoll]: the table is left
    as it was, the poll is still there, and the payload carries no error.
    The owner and every administrator delete the poll, and only it. *)
Theorem deletePoll_scoped w u p :
  session w = Some u -> served w -> primary_key (polls w) -> In p (polls w) ->
  result (deletePoll (Poll.id p)) w = {| Res.error := None |}
  /\ (Poll.user_id p <> User.id u ->
      User.is_admin (User.user_metadata u) <> Some true ->
      polls (after (deletePoll (Poll.id p)) w) = polls w
      /\ In p (polls (after (deletePoll (Poll.id p)) w)))
  /\ (Poll.user_id p = User.id u
      \/ User.is_admin (User.user_metadata u) = Some true ->
      polls (after (deletePoll (Poll.id p)) w)
        = filter (fun r => negb (Js.eqb (Poll.id r) (Poll.id p))) (polls w)
      /\ ~ In p (polls (after (deletePoll (Poll.id p)) w))).
Proof.
  intros Hs S K I. unfold result, after.
  rewrite (deletePoll_run w u p Hs S K I). cbn [fst snd].
  split; [reflexivity |]. unfold canDelete, User.is_admin_strict. split.
  - intros Ho Ha. rewrite (eqb_neq _ _ Ho).
    destruct (User.is_admin (User.user_metadata u)) as [[|] |];
      [contradiction Ha |..]; cbn; auto.
  - intros H.
    assert (E : Js.eqb (Poll.user_id p) (User.id u)
                || match User.is_admin (User.user_metadata u) with
                   | Some true => true
                   | _ => false
                   end = true).
    { destruct H as [-> | ->]; [rewrite eqb_refl | rewrite orb_true_r];
        reflexivity. }
    rewrite E. cbn. split; [reflexivity |].
    rewrite filter_In, eqb_refl. intros [_ F]. discriminate F.
Qed.

Lemma deletePoll_scoped_sample :
  (result (deletePoll js:"p-1") (Sample.signed_in Sample.bob)
     = {| Res.error := None |}
   /\ polls (after (deletePoll js:"p-1") (Sample.signed_in Sample.bob))
      = [Sample.secret; Sample.open])
  /\ polls (after (deletePoll js:"p-1") (Sample.signed_in Sample.alice))
     = [Sample.open]
  /\ polls (after (deletePoll js:"p-1") (Sample.signed_in Sample.root))
     = [Sample.open].
Proof.
  pose proof (fun u => deletePoll_scoped (Sample.signed_in u) u Sample.secret
                         eq_refl I sample_key (or_introl eq_refl)) as H.
  split; [split |]; [| | split].
  - exact (proj1 (H Sample.bob)).
  - destruct (H Sample.bob) as (_ & A & _).
    apply A; discriminate.
  - destruct (H Sample.alice) as (_ & _ & A).
    exact (proj1 (A (or_introl eq_refl))).
  - destruct (H Sample.root) as (_ & _ & A).
    exact (proj1 (A (or_intror eq_refl))).
Defined.

(** ** The validation of [createPoll] and [updatePoll] *)

Section Validation.
Variable sanitize : option Js.str -> Js.str.
Variable fd : FormData.t.

Local Abbreviation test1 := (test1 sanitize fd).
Local Abbreviation test2 := (test2 sanitize fd).
Local Abbreviation test3 := (test3 sanitize fd).
Local Abbreviation test4 := (test4 sanitize fd).

Lemma test1_spec :
  test1 = true <-> no_question sanitize fd \/ too_few_options sanitize fd.
Proof.
  unfold test1, no_question, too_few_options.
  rewrite orb_true_iff, Nat.ltb_lt.
  destruct (question_of sanitize fd); simpl; intuition discriminate.
Qed.

Lemma test2_spec : test2 = true <-> question_too_long sanitize fd.
Proof. apply Nat.ltb_lt. Qed.

Lemma test3_spec : test3 = true <-> too_many_options sanitize fd.
Proof. apply Nat.ltb_lt. Qed.

Lemma test4_spec : test4 = true <-> option_too_long sanitize fd.
Proof.
  unfold test4, option_too_long. rewrite existsb_exists, Exists_exists.
  split; intros (o & Ho & H); exists o; split; auto; apply Nat.ltb_lt; exact H.
Qed.

Lemma valid_input_spec :
  valid_input sanitize fd
  <-> test1 = false /\ test2 = false /\ test3 = false /\ test4 = false.
Proof.
  unfold valid_input.
  rewrite <- !not_true_iff_false, test1_spec, test2_spec, test3_spec, test4_spec.
  tauto.
Qed.

(** [createPoll] and [updatePoll] as the chain of tests followed by
    what they do with an input that passed. *)
Lemma createPoll_unfold w :
  run (createPoll sanitize fd) w
  = if test1 then (rejected incomplete_message, w)
    else if test2 then (rejected question_too_long_message, w)
    else if test3 then (rejected too_many_options_message, w)
    else if test4 then (rejected option_too_long_message, w)
    else
      match session_error w, session w with
      | Some e, _ => (rejected (AuthError.message e), asked GetUser w)
      | None, None =>
          (rejected js:"You must be logged in to create a poll.", asked GetUser w)
      | None, Some u =>
          match upstream w with
          | Some e :: rest =>
              (rejected (PgError.message e), with_upstream rest (asked GetUser w))
          | _ =>
              (accepted,
               with_revalidated (revalidated w ++ [js:"/polls"])
                 (with_serial (S (serial w))
                    (with_polls
                       (polls w ++
                          [{| Poll.id := uuid w (serial w);
                              Poll.user_id := User.id u;
                              Poll.question := question_of sanitize fd;
                              Poll.options := options_of sanitize fd;
                              Poll.is_public := is_public_default w;
                              Poll.created_at := serial w |}])
                       (answered (asked GetUser w)))))
          end
      end.
Proof.
  unfold createPoll. cbv zeta.
  change (sanitize (FormData.get "question" fd)) with (question_of sanitize fd).
  change (map _ (filter _ _)) with (options_of sanitize fd).
  fold test1 test2 test3 test4.
  destruct test1; [reflexivity |].
  destruct test2; [reflexivity |].
  destruct test3; [reflexivity |].
  destruct test4; [reflexivity |].
  rewrite run_bind, getUser_run.
  destruct (session_error w) as [e |]; [reflexivity |].
  destruct (session w) as [u |]; [| reflexivity].
  rewrite run_bind.
  destruct (upstream w) as [| [e |] rest] eqn:U.
  - rewrite insert_served by (unfold served, asked; cbn; rewrite U; exact I).
    reflexivity.
  - rewrite (insert_refused _ _ (asked GetUser w) e rest U). reflexivity.
  - rewrite insert_served by (unfold served, asked; cbn; rewrite U; exact I).
    reflexivity.
Qed.

Lemma updatePoll_unfold pollId w :
  run (updatePoll sanitize pollId fd) w
  = if test1 then (rejected incomplete_message, w)
    else if test2 then (rejected question_too_long_message, w)
    else if test3 then (rejected too_many_options_message, w)
    else if test4 then (rejected option_too_long_message, w)
    else
      match session_error w, session w with
      | Some e, _ => (rejected (AuthError.message e), asked GetUser w)
      | None, None =>
          (rejected js:"You must be logged in to update a poll.", asked GetUser w)
      | None, Some u =>
          match upstream w with
          | Some e :: rest =>
              (rejected (PgError.message e), with_upstream rest (asked GetUser w))
          | _ =>
              (accepted,
               with_polls
                 (map (fun r =>
                         if Js.eqb (Poll.id r) pollId
                            && Js.eqb (Poll.user_id r) (User.id u)
                         then {| Poll.id := Poll.id r;
                                 Poll.user_id := Poll.user_id r;
                                 Poll.question := question_of sanitize fd;
                                 Poll.options := options_of sanitize fd;
                                 Poll.is_public := Poll.is_public r;
                                 Poll.created_at := Poll.created_at r |}
                         else r) (polls w))
                 (answered (asked GetUser w)))
          end
      end.
Proof.
  unfold updatePoll. cbv zeta.
  change (sanitize (FormData.get "question" fd)) with (question_of sanitize fd).
  change (map _ (filter _ _)) with (options_of sanitize fd).
  fold test1 test2 test3 test4.
  destruct test1; [reflexivity |].
  destruct test2; [reflexivity |].
  destruct test3; [reflexivity |].
  destruct test4; [reflexivity |].
  rewrite run_bind, getUser_run.
  destruct (session_error w) as [e |]; [reflexivity |].
  destruct (session w) as [u |]; [| reflexivity].
  rewrite run_bind.
  assert (M : forall r,
             matching Polls
               (eq "user_id" (VStr (User.id u)) (eq "id" (VStr pollId) all)) r
             = Js.eqb (Poll.id r) pollId && Js.eqb (Poll.user_id r) (User.id u)).
  { intros r. cbn. rewrite andb_true_r. reflexivity. }
  destruct (upstream w) as [| [e |] rest] eqn:U.
  - rewrite update_served by (unfold served, asked; cbn; rewrite U; exact I).
    cbn [rows with_rows Polls]. erewrite map_ext; [reflexivity |].
    intros r. cbv beta. rewrite M. reflexivity.
  - unfold update.
    rewrite run_bind, (request_refused (asked GetUser w) e rest U). reflexivity.
  - rewrite update_served by (unfold served, asked; cbn; rewrite U; exact I).
    cbn [rows with_rows Polls]. erewrite map_ext; [reflexivity |].
    intros r. cbv beta. rewrite M. reflexivity.
Qed.
End Validation.


Ltac tests_of H :=
  apply valid_input_spec in H; destruct H as (?T1 & ?T2 & ?T3 & ?T4).


(** ** [updatePoll] *)

(** C2.  With a valid input and a store that serves the request,
    [updatePoll] leaves every poll that the caller does not own as it
    was, at its place in the table, and returns no error, whatever the
    [is_admin] flag of the caller: the filter of the update is [id] and
    owner, and an administrator gets no exemption from it. *)
Theorem updatePoll_no_admin_override sanitize w u pollId fd i p :
  session w = Some u -> session_error w = None -> served w ->
  valid_input sanitize fd ->
  nth_error (polls w) i = Some p -> Poll.user_id p <> User.id u ->
  nth_error (polls (after (updatePoll sanitize pollId fd) w)) i = Some p
  /\ result (updatePoll sanitize pollId fd) w = accepted.
Proof.
  intros Hs He S V Hp Ho. tests_of V.
  unfold result, after. rewrite updatePoll_unfold, T1, T2, T3, T4, Hs, He.
  unfold served in S.
  destruct (upstream w) as [| [e |] rest]; try contradiction; cbn [fst snd];
    (split; [| reflexivity]); cbn [polls with_polls];
    rewrite nth_error_map, Hp; cbn [option_map];
    rewrite (eqb_neq _ _ Ho), andb_false_r; reflexivity.
Qed.

(** C10.  [createPoll] and [updatePoll] validate before they ask who is
    calling.  An input that fails the validation gets its validation
    message in every world, signed in or not, and the world is left
    untouched: the provider is not even asked.  Without a session a valid
    input gets the "must be logged in" message; conversely that message
    is returned only for an input that passed every test, and then only
    when there is no session, unless a collaborator happened to report
    an error with that very text. *)
Theorem validation_precedes_authentication sanitize fd pollId w :
  (~ valid_input sanitize fd ->
   exists m,
     In m [incomplete_message; question_too_long_message;
           too_many_options_message; option_too_long_message]
     /\ forall w',
         run (createPoll sanitize fd) w' = (rejected m, w')
         /\ run (updatePoll sanitize pollId fd) w' = (rejected m, w'))
  /\ (valid_input sanitize fd -> session w = None -> session_error w = None ->
      result (createPoll sanitize fd) w = rejected login_to_create
      /\ result (updatePoll sanitize pollId fd) w = rejected login_to_update)
  /\ (result (createPoll sanitize fd) w = rejected login_to_create ->
      valid_input sanitize fd
      /\ (session w = None
          \/ (exists e, session_error w = Some e
                        /\ AuthError.message e = login_to_create)
          \/ (exists e rest, upstream w = Some e :: rest
                             /\ PgError.message e = login_to_create)))
  /\ (result (updatePoll sanitize pollId fd) w = rejected login_to_update ->
      valid_input sanitize fd
      /\ (session w = None
          \/ (exists e, session_error w = Some e
                        /\ AuthError.message e = login_to_update)
          \/ (exists e rest, upstream w = Some e :: rest
                             /\ PgError.message e = login_to_update))).
Proof.
  pose proof (valid_input_spec sanitize fd) as EV.
  split; [| split; [| split]].
  - intros NV.
    destruct (test1 sanitize fd) eqn:T1;
      [exists incomplete_message; split; [simpl; tauto |] |
       destruct (test2 sanitize fd) eqn:T2;
       [exists question_too_long_message; split; [simpl; tauto |] |
        destruct (test3 sanitize fd) eqn:T3;
        [exists too_many_options_message; split; [simpl; tauto |] |
         destruct (test4 sanitize fd) eqn:T4;
         [exists option_too_long_message; split; [simpl; tauto |] |
          exfalso; apply NV, EV; auto]]]];
      intros w'; rewrite createPoll_unfold, updatePoll_unfold;
      rewrite ?T1, ?T2, ?T3, ?T4; split; reflexivity.
  - intros V Hs He. tests_of V. unfold result.
    rewrite createPoll_unfold, updatePoll_unfold, T1, T2, T3, T4, Hs, He.
    split; reflexivity.
  - unfold result. rewrite createPoll_unfold. rewrite EV.
    destruct (test1 sanitize fd); [discriminate |].
    destruct (test2 sanitize fd); [discriminate |].
    destruct (test3 sanitize fd); [discriminate |].
    destruct (test4 sanitize fd); [discriminate |].
    intros H. split; [auto |].
    destruct (session_error w) as [e |].
    { right; left. exists e. split; [reflexivity |]. injection H as H. exact H. }
    destruct (session w) as [u |]; [| left; reflexivity].
    destruct (upstream w) as [| [e |] rest]; try discriminate H.
    right; right. exists e, rest. split; [reflexivity |].
    injection H as H. exact H.
  - unfold result. rewrite updatePoll_unfold. rewrite EV.
    destruct (test1 sanitize fd); [discriminate |].
    destruct (test2 sanitize fd); [discriminate |].
    destruct (test3 sanitize fd); [discriminate |].
    destruct (test4 sanitize fd); [discriminate |].
    intros H. split; [auto |].
    destruct (session_error w) as [e |].
    { right; left. exists e. split; [reflexivity |]. injection H as H. exact H. }
    destruct (session w) as [u |]; [| left; reflexivity].
    destruct (upstream w) as [| [e |] rest]; try discriminate H.
    right; right. exists e, rest. split; [reflexivity |].
    injection H as H. exact H.
Qed.

(** ** Concrete runs of the validation *)

Lemma sample_valid n k :
  test1 Sample.strip (Sample.long_form n (repeat js:"a" k)) = false ->
  test2 Sample.strip (Sample.long_form n (repeat js:"a" k)) = false ->
  test3 Sample.strip (Sample.long_form n (repeat js:"a" k)) = false ->
  test4 Sample.strip (Sample.long_form n (repeat js:"a" k)) = false ->
  valid_input Sample.strip (Sample.long_form n (repeat js:"a" k)).
Proof. intros. apply valid_input_spec. auto. Qed.

Lemma updatePoll_no_admin_override_sample :
  nth_error
    (polls (after (updatePoll Sample.strip js:"p-1"
                     (Sample.long_form 9 (repeat js:"a" 2)))
              (Sample.signed_in Sample.root))) 0
    = Some Sample.secret
  /\ result (updatePoll Sample.strip js:"p-1"
               (Sample.long_form 9 (repeat js:"a" 2)))
       (Sample.signed_in Sample.root)
     = accepted.
Proof.
  apply (updatePoll_no_admin_override Sample.strip
           (Sample.signed_in Sample.root) Sample.root js:"p-1"
           (Sample.long_form 9 (repeat js:"a" 2)) 0 Sample.secret).
  - reflexivity.
  - reflexivity.
  - exact I.
  - apply sample_valid; reflexivity.
  - reflexivity.
  - discriminate.
Defined.



Lemma validation_precedes_authentication_sample :
  (run (createPoll Sample.strip (Sample.long_form 256 (repeat js:"a" 2)))
     Sample.world
   = (rejected question_too_long_message, Sample.world))
  /\ result (createPoll Sample.strip (Sample.long_form 255 (repeat js:"a" 2)))
       Sample.world = rejected login_to_create
  /\ result (updatePoll Sample.strip js:"p-1"
               (Sample.long_form 255 (repeat js:"a" 2)))
       Sample.world = rejected login_to_update.
Proof.
  split.
  - destruct (validation_precedes_authentication Sample.strip
                (Sample.long_form 256 (repeat js:"a" 2)) js:"p-1" Sample.world)
      as (A & _).
    destruct A as (m & _ & A).
    + intros V. apply valid_input_spec in V.
      destruct V as (_ & V & _). discriminate V.
    + destruct (A Sample.world) as (B & _).
      rewrite B. f_equal. symmetry.
      exact (f_equal fst B).
  - destruct (validation_precedes_authentication Sample.strip
                (Sample.long_form 255 (repeat js:"a" 2)) js:"p-1" Sample.world)
      as (_ & A & _).
    apply A; [apply sample_valid |..]; reflexivity.
Defined.

(** ** [submitVote] *)

Lemma ballots_matching pollId userId l :
  filter (matching Votes (all |> eq "poll_id" (VStr pollId)
                              |> eq "user_id" (VStr userId))) l
  = ballots pollId userId l.
Proof.
  unfold ballots. apply filter_ext. intros v. cbn.
  unfold cast_by. destruct (Vote.user_id v); cbn; rewrite ?andb_true_r; reflexivity.
Qed.

Lemma submitVote_unfold pollId optionIndex w :
  run (submitVote pollId optionIndex) w
  = match session w with
    | None => cast_vote pollId None optionIndex (asked GetUser w)
    | Some u =>
        match upstream w with
        | Some e :: rest =>
            if Js.eqb (PgError.code e) js:"PGRST116"
            then cast_vote pollId (Some u) optionIndex
                   (with_upstream rest (asked GetUser w))
            else (rejected (PgError.message e),
                  with_upstream rest (asked GetUser w))
        | _ =>
            match ballots pollId (User.id u) (votes w) with
            | [_] => (rejected already_voted, answered (asked GetUser w))
            | _ => cast_vote pollId (Some u) optionIndex
                     (answered (asked GetUser w))
            end
        end
    end.
Proof.
  assert (C : forall user w1,
             run (error <- insert Votes (fun w0 =>
                    {| Vote.id := uuid w0 (serial w0);
                       Vote.poll_id := pollId;
                       Vote.user_id := option_map User.id user;
                       Vote.option_index := optionIndex;
                       Vote.created_at := serial w0 |}) ;;
                  match error with
                  | Some e => ret {| Res.error := Some (PgError.message e) |}
                  | None => ret {| Res.error := None |}
                  end) w1
             = cast_vote pollId user optionIndex w1).
  { intros user w1. rewrite run_bind. unfold cast_vote.
    destruct (upstream w1) as [| [e |] rest] eqn:U.
    - rewrite insert_served by (unfold served; rewrite U; exact I). reflexivity.
    - rewrite (insert_refused _ _ w1 e rest U). reflexivity.
    - rewrite insert_served by (unfold served; rewrite U; exact I). reflexivity. }
  unfold submitVote. rewrite run_bind, getUser_run. cbv zeta.
  destruct (session w) as [u |]; [| apply C].
  rewrite run_bind.
  destruct (upstream w) as [| [e |] rest] eqn:U.
  - rewrite select_single_served by (unfold served, asked; cbn; rewrite U; exact I).
    cbn [rows Votes votes answered asked with_upstream with_idp_requests].
    rewrite ballots_matching.
    destruct (ballots pollId (User.id u) (votes w)) as [| v [| v' l]];
      try reflexivity; apply C.
  - rewrite (select_single_refused _ _ (asked GetUser w) e rest U).
    destruct (Js.eqb (PgError.code e) js:"PGRST116"); cbn [negb];
      [apply C | reflexivity].
  - rewrite select_single_served by (unfold served, asked; cbn; rewrite U; exact I).
    cbn [rows Votes votes answered asked with_upstream with_idp_requests].
    rewrite ballots_matching.
    destruct (ballots pollId (User.id u) (votes w)) as [| v [| v' l]];
      try reflexivity; apply C.
Qed.

Lemma healthy_served w : healthy w -> served w.
Proof.
  unfold healthy, served. destruct (upstream w) as [| [e |] rest]; auto.
  intros H. inversion H; discriminate.
Qed.

Lemma healthy_answered w : healthy w -> healthy (answered w).
Proof.
  unfold healthy, answered. cbn. destruct (upstream w); cbn; auto.
  intros H. inversion H; assumption.
Qed.

Lemma cast_vote_served pollId user optionIndex w :
  served w ->
  cast_vote pollId user optionIndex w
  = (accepted,
     with_serial (S (serial w))
       (with_votes (votes w ++ [new_vote pollId user optionIndex w])
          (answered w))).
Proof.
  unfold served, cast_vote. destruct (upstream w) as [| [e |] rest];
    intros H; [reflexivity | contradiction | reflexivity].
Qed.

Lemma cast_vote_result pollId user i j w :
  fst (cast_vote pollId user i w) = fst (cast_vote pollId user j w).
Proof.
  unfold cast_vote. destruct (upstream w) as [| [e |] rest]; reflexivity.
Qed.

Lemma sole_ballot pollId userId l :
  one_vote_each l -> ballots pollId userId l <> [] ->
  exists v, ballots pollId userId l = [v].
Proof.
  intros H N. specialize (H pollId userId).
  destruct (ballots pollId userId l) as [| v [| v' l']]; simpl in H.
  - contradiction.
  - exists v. reflexivity.
  - lia.
Qed.

Lemma anonymous_replay pollId optionIndex n : forall w,
  session w = None -> healthy w ->
  result (replay n (submitVote pollId optionIndex)) w = repeat accepted n
  /\ exists added,
       votes (after (replay n (submitVote pollId optionIndex)) w)
         = votes w ++ added
       /\ List.length added = n
       /\ Forall (fun v => Vote.user_id v = None
                           /\ Vote.poll_id v = pollId
                           /\ Vote.option_index v = optionIndex) added.
Proof.
  induction n as [| n IH]; intros w Hs Hh.
  - split; [reflexivity |]. exists []. cbn. rewrite app_nil_r. auto.
  - unfold result, after. cbn [replay].
    rewrite run_bind, submitVote_unfold, Hs.
    rewrite cast_vote_served by (apply healthy_served in Hh; exact Hh).
    rewrite run_bind.
    set (w1 := with_serial _ _).
    assert (Hs1 : session w1 = None) by exact Hs.
    assert (Hh1 : healthy w1) by (apply healthy_answered in Hh; exact Hh).
    destruct (IH w1 Hs1 Hh1) as (R & added & V & L & F).
    unfold result, after in R, V.
    destruct (run (replay n (submitVote pollId optionIndex)) w1) as [xs w2].
    cbn [fst snd] in *. subst xs. split; [reflexivity |].
    exists (new_vote pollId None optionIndex (asked GetUser w) :: added).
    split; [| split].
    + change (votes w2 = votes w ++ new_vote pollId None optionIndex (asked GetUser w) :: added).
      rewrite V. unfold w1. cbn [votes with_serial with_votes].
      rewrite <- app_assoc. reflexivity.
    + cbn. rewrite L. reflexivity.
    + constructor; [cbn; auto | exact F].
Qed.

Lemma ballots_app pollId userId l l' :
  ballots pollId userId (l ++ l')
  = ballots pollId userId l ++ ballots pollId userId l'.
Proof. apply filter_app. Qed.

Lemma cast_vote_votes pollId user optionIndex w :
  votes (snd (cast_vote pollId user optionIndex w)) = votes w
  \/ votes (snd (cast_vote pollId user optionIndex w))
     = votes w ++ [new_vote pollId user optionIndex w].
Proof.
  unfold cast_vote. destruct (upstream w) as [| [e |] rest]; cbn; auto.
Qed.

(** The invariant of the data model is kept by [submitVote] when its
    check for a previous vote is served by the store. *)
Lemma submitVote_keeps_one_vote_each pollId optionIndex w :
  served w -> one_vote_each (votes w) ->
  one_vote_each (votes (after (submitVote pollId optionIndex) w)).
Proof.
  intros Sv Inv. unfold after. rewrite submitVote_unfold.
  destruct (session w) as [u |].
  - unfold served in Sv.
    assert (K : one_vote_each
                  (votes (snd
                    match ballots pollId (User.id u) (votes w) with
                    | [_] => (rejected already_voted, answered (asked GetUser w))
                    | _ => cast_vote pollId (Some u) optionIndex
                             (answered (asked GetUser w))
                    end))).
    { pose proof (Inv pollId (User.id u)) as Hl.
      destruct (ballots pollId (User.id u) (votes w)) as [| v [| v' l]] eqn:Hb;
        [| exact Inv | simpl in Hl; lia].
      destruct (cast_vote_votes pollId (Some u) optionIndex
                  (answered (asked GetUser w))) as [-> | ->]; [exact Inv |].
      intros P' u'. cbn [votes answered asked with_upstream with_idp_requests].
      rewrite ballots_app, length_app.
      unfold ballots at 2. cbn [filter new_vote].
      destruct (cast_by P' u' _) eqn:C; cbn [List.length].
      - unfold cast_by in C. cbn in C. apply andb_true_iff in C.
        destruct C as [C1 C2]. apply eqb_eq in C1, C2. subst P' u'.
        rewrite Hb. reflexivity.
      - specialize (Inv P' u'). lia. }
    destruct (upstream w) as [| [e |] rest]; [exact K | contradiction | exact K].
  - destruct (cast_vote_votes pollId None optionIndex (asked GetUser w))
      as [-> | ->]; [exact Inv |].
    intros P' u'. cbn [votes asked with_idp_requests].
    rewrite ballots_app, length_app.
    unfold ballots at 2, cast_by. cbn. rewrite andb_false_r. cbn.
    specialize (Inv P' u'). lia.
Qed.

(** X25.  In a table that holds at most one vote of a user on a poll, a
    signed-in user who has a vote on the poll is refused with
    "You have already voted on this poll." and nothing is inserted.  An
    anonymous caller may vote on the same poll any number of times: every
    call succeeds and adds a row.  When the check for a previous vote
    finds no row, or the store reports the no-rows code for it, the vote
    is inserted; any other failure of the check is returned as the error
    and nothing is inserted.  For an anonymous caller the action is the
    insertion and nothing else: no check for a previous vote is made. *)
Theorem submitVote_duplicates pollId optionIndex w :
  (forall u, session w = Some u -> served w ->
             one_vote_each (votes w) ->
             ballots pollId (User.id u) (votes w) <> [] ->
             result (submitVote pollId optionIndex) w = rejected already_voted
             /\ votes (after (submitVote pollId optionIndex) w) = votes w)
  /\ (session w = None -> healthy w ->
      forall n,
        result (replay n (submitVote pollId optionIndex)) w = repeat accepted n
        /\ exists added,
             votes (after (replay n (submitVote pollId optionIndex)) w)
               = votes w ++ added
             /\ List.length added = n
             /\ Forall (fun v => Vote.user_id v = None
                                 /\ Vote.poll_id v = pollId
                                 /\ Vote.option_index v = optionIndex) added)
  /\ (forall u, session w = Some u -> served w -> served (answered w) ->
             ballots pollId (User.id u) (votes w) = [] ->
             result (submitVote pollId optionIndex) w = accepted
             /\ votes (after (submitVote pollId optionIndex) w)
                = votes w ++ [new_vote pollId (Some u) optionIndex w])
  /\ (forall u e rest, session w = Some u -> upstream w = Some e :: rest ->
             PgError.code e = js:"PGRST116" ->
             served (with_upstream rest w) ->
             result (submitVote pollId optionIndex) w = accepted
             /\ votes (after (submitVote pollId optionIndex) w)
                = votes w ++ [new_vote pollId (Some u) optionIndex w])
  /\ (forall u e rest, session w = Some u -> upstream w = Some e :: rest ->
             PgError.code e <> js:"PGRST116" ->
             result (submitVote pollId optionIndex) w
               = rejected (PgError.message e)
             /\ votes (after (submitVote pollId optionIndex) w) = votes w)
  /\ (session w = None ->
      run (submitVote pollId optionIndex) w
        = cast_vote pollId None optionIndex (asked GetUser w)).
Proof.
  split; [| split; [| split; [| split; [| split]]]].
  - intros u Hs Sv Inv Hb.
    destruct (sole_ballot _ _ _ Inv Hb) as [v Hv].
    unfold result, after. rewrite submitVote_unfold, Hs, Hv.
    unfold served in Sv.
    destruct (upstream w) as [| [e |] rest]; try contradiction; split; reflexivity.
  - intros Hs Hh n. apply anonymous_replay; assumption.
  - intros u Hs Sv Sv' Hb.
    unfold result, after. rewrite submitVote_unfold, Hs, Hb.
    assert (C : cast_vote pollId (Some u) optionIndex (answered (asked GetUser w))
                = (accepted,
                   with_serial (S (serial w))
                     (with_votes (votes w ++ [new_vote pollId (Some u) optionIndex w])
                        (answered (answered (asked GetUser w)))))).
    { rewrite cast_vote_served by exact Sv'. reflexivity. }
    unfold served in Sv.
    destruct (upstream w) as [| [e |] rest]; try contradiction;
      rewrite C; split; reflexivity.
  - intros u e rest Hs U Hc Sv.
    unfold result, after. rewrite submitVote_unfold, Hs, U, Hc, eqb_refl.
    rewrite cast_vote_served by exact Sv. split; reflexivity.
  - intros u e rest Hs U Hc.
    unfold result, after. rewrite submitVote_unfold, Hs, U, (eqb_neq _ _ Hc).
    split; reflexivity.
  - intros Hs. rewrite submitVote_unfold, Hs. reflexivity.
Qed.

(** C7.  [submitVote] never looks at the value of [optionIndex]: the
    payload is the same for any two indices, and whenever the vote is not
    a duplicate and the store serves the requests, the row is inserted
    with the index as given, whatever the number of options of the
    poll. *)
Theorem submitVote_no_bounds_check pollId w :
  (forall i j,
     result (submitVote pollId i) w = result (submitVote pollId j) w)
  /\ (forall i,
        healthy w ->
        (session w = None
         \/ exists u, session w = Some u
                      /\ ballots pollId (User.id u) (votes w) = []) ->
        result (submitVote pollId i) w = accepted
        /\ votes (after (submitVote pollId i) w)
           = votes w ++ [new_vote pollId (session w) i w]
        /\ Vote.option_index (new_vote pollId (session w) i w) = i).
Proof.
  split.
  - intros i j. unfold result. rewrite !submitVote_unfold.
    destruct (session w) as [u |]; [| apply cast_vote_result].
    destruct (upstream w) as [| [e |] rest].
    + destruct (ballots _ _ _) as [| v [| v' l]];
        try reflexivity; apply cast_vote_result.
    + destruct (Js.eqb _ _); [apply cast_vote_result | reflexivity].
    + destruct (ballots _ _ _) as [| v [| v' l]];
        try reflexivity; apply cast_vote_result.
  - intros i Hh Hc.
    pose proof (healthy_served _ Hh) as Sv.
    pose proof (healthy_served _ (healthy_answered _ Hh)) as Sv'.
    unfold result, after. rewrite submitVote_unfold.
    destruct Hc as [Hs | (u & Hs & Hb)]; rewrite Hs.
    + rewrite cast_vote_served by exact Sv. repeat split.
    + rewrite Hb.
      assert (C : cast_vote pollId (Some u) i (answered (asked GetUser w))
                  = (accepted,
                     with_serial (S (serial w))
                       (with_votes (votes w ++ [new_vote pollId (Some u) i w])
                          (answered (answered (asked GetUser w)))))).
      { rewrite cast_vote_served by exact Sv'. reflexivity. }
      unfold served in Sv.
      destruct (upstream w) as [| [e |] rest]; try contradiction;
        rewrite C; repeat split.
Qed.

Lemma sample_votes : one_vote_each (votes Sample.world).
Proof.
  intros pollId userId. unfold ballots. simpl.
  destruct (cast_by pollId userId Sample.ballot); simpl; lia.
Qed.

Lemma submitVote_duplicates_sample :
  result (submitVote js:"p-2" 1) (Sample.signed_in Sample.alice)
    = rejected already_voted
  /\ result (replay 3 (submitVote js:"p-2" 1)) Sample.world
     = [accepted; accepted; accepted]
  /\ result (submitVote js:"p-2" 1) (Sample.signed_in Sample.bob) = accepted
  /\ result (submitVote js:"p-2" 1)
       (with_upstream [Some Sample.outage] (Sample.signed_in Sample.bob))
     = rejected js:"connection lost".
Proof.
  split; [| split; [| split]].
  - destruct (submitVote_duplicates js:"p-2" 1 (Sample.signed_in Sample.alice))
      as (A & _).
    apply (A Sample.alice eq_refl I sample_votes). discriminate.
  - destruct (submitVote_duplicates js:"p-2" 1 Sample.world) as (_ & A & _).
    exact (proj1 (A eq_refl (Forall_nil _) 3)).
  - destruct (submitVote_duplicates js:"p-2" 1 (Sample.signed_in Sample.bob))
      as (_ & _ & A & _).
    exact (proj1 (A Sample.bob eq_refl I I eq_refl)).
  - destruct (submitVote_duplicates js:"p-2" 1
                (with_upstream [Some Sample.outage] (Sample.signed_in Sample.bob)))
      as (_ & _ & _ & _ & A & _).
    apply (A Sample.bob Sample.outage [] eq_refl eq_refl). discriminate.
Defined.

(** With two or more votes of the caller on the poll, [single()] fails
    with the no-rows code, which the action takes for "no vote yet". *)
Lemma submitVote_many_ballots pollId optionIndex w u :
  session w = Some u -> served w -> served (answered w) ->
  2 <= List.length (ballots pollId (User.id u) (votes w)) ->
  result (submitVote pollId optionIndex) w = accepted
  /\ votes (after (submitVote pollId optionIndex) w)
     = votes w ++ [new_vote pollId (Some u) optionIndex w].
Proof.
  intros Hs Sv Sv' L. unfold result, after. rewrite submitVote_unfold, Hs.
  assert (C : cast_vote pollId (Some u) optionIndex (answered (asked GetUser w))
              = (accepted,
                 with_serial (S (serial w))
                   (with_votes (votes w ++ [new_vote pollId (Some u) optionIndex w])
                      (answered (answered (asked GetUser w)))))).
  { rewrite cast_vote_served by exact Sv'. reflexivity. }
  destruct (ballots pollId (User.id u) (votes w)) as [| v [| v' l]];
    simpl in L; try lia.
  unfold served in Sv.
  destruct (upstream w) as [| [e |] rest]; try contradiction;
    rewrite C; split; reflexivity.
Qed.

(** C6.  The code departs from the claim.  A signed-in user who has two
    votes recorded on a poll, which two submissions that both passed the
    check before either insertion leave behind, is not refused: the check
    for a previous vote asks for a single row, fails with the no-rows code
    because there are two, and [submitVote] takes that for "no vote yet".
    It returns no error and inserts a third vote of that user. *)
Theorem submitVote_double_voter_votes_again :
  ballots js:"p-2" js:"u-alice" (votes Notions.voted_twice)
    = [Sample.ballot; Notions.second_ballot]
  /\ result (submitVote js:"p-2" 2) Notions.voted_twice = accepted
  /\ votes (after (submitVote js:"p-2" 2) Notions.voted_twice)
     = [Sample.ballot; Notions.second_ballot;
        new_vote js:"p-2" (Some Sample.alice) 2 Notions.voted_twice]
  /\ List.length
       (ballots js:"p-2" js:"u-alice"
          (votes (after (submitVote js:"p-2" 2) Notions.voted_twice))) = 3.
Proof.
  split; [reflexivity |].
  destruct (submitVote_many_ballots js:"p-2" 2 Notions.voted_twice Sample.alice)
    as (R & V).
  - reflexivity.
  - exact I.
  - exact I.
  - simpl. lia.
  - split; [exact R |]. rewrite V. split; reflexivity.
Qed.

Lemma submitVote_no_bounds_check_sample :
  List.length (Poll.options Sample.open) = 3
  /\ result (submitVote js:"p-2" 7) (Sample.signed_in Sample.bob) = accepted
  /\ map Vote.option_index
       (votes (after (submitVote js:"p-2" 7) (Sample.signed_in Sample.bob)))
     = [0%Z; 7%Z]
  /\ map Vote.option_index
       (votes (after (submitVote js:"p-2" (-1)) Sample.world))
     = [0%Z; (-1)%Z].
Proof.
  split; [reflexivity |].
  destruct (submitVote_no_bounds_check js:"p-2" (Sample.signed_in Sample.bob))
    as (_ & A).
  destruct (A 7%Z (Forall_nil _) (or_intror (ex_intro _ Sample.bob (conj eq_refl eq_refl))))
    as (R & V & _).
  split; [exact R |]. split; [rewrite V; reflexivity |].
  destruct (submitVote_no_bounds_check js:"p-2" Sample.world) as (_ & B).
  destruct (B (-1)%Z (Forall_nil _) (or_introl eq_refl)) as (_ & V' & _).
  rewrite V'. reflexivity.
Defined.

End PollProps.

(** * The two patterns *)

Module RegexProps.

Import Regex AuthActions Notions.

Create HintDb regex.
#[local] Hint Constructors denotes : regex.

Lemma void_inv u : ~ denotes Void u.
Proof. intros H. inversion H. Qed.

Lemma eps_inv u : denotes Eps u -> u = [].
Proof. intros H. inversion H. reflexivity. Qed.

Lemma cls_inv p u : denotes (Cls p) u -> exists c, u = [c] /\ p c = true.
Proof. intros H. inversion H; subst. eauto. Qed.

Lemma cat_inv a b u :
  denotes (Cat a b) u -> exists s t, u = s ++ t /\ denotes a s /\ denotes b t.
Proof. intros H. inversion H; subst. eauto. Qed.

Lemma alt_inv a b u : denotes (Alt a b) u -> denotes a u \/ denotes b u.
Proof. intros H. inversion H; subst; auto. Qed.

Lemma and_inv a b u : denotes (And a b) u -> denotes a u /\ denotes b u.
Proof. intros H. inversion H; subst; auto. Qed.

Lemma nullable_denotes r : nullable r = true <-> denotes r [].
Proof.
  induction r; simpl.
  - split; [discriminate | intros H; contradiction (void_inv _ H)].
  - split; auto with regex.
  - split; [discriminate |]. intros H. apply cls_inv in H.
    destruct H as (c & H & _). discriminate.
  - rewrite andb_true_iff, IHr1, IHr2. split.
    + intros [H1 H2]. exact (den_cat _ _ [] [] H1 H2).
    + intros H. apply cat_inv in H. destruct H as (s & u & E & H1 & H2).
      symmetry in E. apply app_eq_nil in E. destruct E; subst. auto.
  - rewrite orb_true_iff, IHr1, IHr2. split.
    + intros [H | H]; auto with regex.
    + apply alt_inv.
  - rewrite andb_true_iff, IHr1, IHr2. split.
    + intros [H1 H2]. auto with regex.
    + apply and_inv.
  - split; auto with regex.
Qed.

Lemma cat_denotes a b s : denotes (cat a b) s <-> denotes (Cat a b) s.
Proof.
  assert (L : forall u, ~ denotes (Cat Void b) u).
  { intros u H. apply cat_inv in H. destruct H as (? & ? & _ & H & _).
    contradiction (void_inv _ H). }
  assert (R : forall u, ~ denotes (Cat a Void) u).
  { intros u H. apply cat_inv in H. destruct H as (? & ? & _ & _ & H).
    contradiction (void_inv _ H). }
  assert (E : forall u, denotes b u <-> denotes (Cat Eps b) u).
  { intros u. split.
    - intros H. exact (den_cat Eps b [] u den_eps H).
    - intros H. apply cat_inv in H. destruct H as (x & y & -> & H1 & H2).
      apply eps_inv in H1. subst. exact H2. }
  destruct a, b; simpl; try tauto; try apply E;
    split; intros H; try contradiction (void_inv _ H); exfalso;
    first [eapply L; eassumption | eapply R; eassumption].
Qed.

Lemma alt_denotes a b s : denotes (alt a b) s <-> denotes (Alt a b) s.
Proof.
  assert (L : forall u, denotes b u <-> denotes (Alt Void b) u).
  { intros u. split; [auto with regex |].
    intros H. apply alt_inv in H. destruct H as [H | H];
      [contradiction (void_inv _ H) | assumption]. }
  assert (R : forall u, denotes a u <-> denotes (Alt a Void) u).
  { intros u. split; [auto with regex |].
    intros H. apply alt_inv in H. destruct H as [H | H];
      [assumption | contradiction (void_inv _ H)]. }
  destruct a, b; simpl; try tauto; first [apply L | apply R].
Qed.

Lemma and_denotes a b s : denotes (and a b) s <-> denotes (And a b) s.
Proof.
  assert (L : forall u, denotes Void u <-> denotes (And Void b) u).
  { intros u. split; intros H; [contradiction (void_inv _ H) |].
    apply and_inv in H. tauto. }
  assert (R : forall u, denotes Void u <-> denotes (And a Void) u).
  { intros u. split; intros H; [contradiction (void_inv _ H) |].
    apply and_inv in H. tauto. }
  destruct a, b; simpl; try tauto; first [apply L | apply R].
Qed.

Lemma star_cons a c s :
  denotes (Star a) (c :: s) ->
  exists s1 s2, s = s1 ++ s2 /\ denotes a (c :: s1) /\ denotes (Star a) s2.
Proof.
  intros H. remember (Star a) as r eqn:Er. remember (c :: s) as u eqn:Eu.
  revert s Eu.
  induction H as [| | | | | | a' | a' u1 u2 H1 _ H2 IH2]; intros s' Eu;
    try discriminate.
  injection Er as ->. destruct u1 as [| x u1].
  - simpl in Eu. apply IH2; auto.
  - simpl in Eu. injection Eu as -> <-. exists u1, u2. auto.
Qed.

Lemma deriv_denotes r : forall c s, denotes (deriv c r) s <-> denotes r (c :: s).
Proof.
  induction r; intros c s; simpl.
  - split; intros H; contradiction (void_inv _ H).
  - split; intros H; [contradiction (void_inv _ H) |].
    apply eps_inv in H. discriminate.
  - destruct (p c) eqn:E; split; intros H.
    + apply eps_inv in H. subst. exact (den_cls p c E).
    + apply cls_inv in H. destruct H as (x & H & _). injection H as _ ->.
      constructor.
    + contradiction (void_inv _ H).
    + apply cls_inv in H. destruct H as (x & H & Hx). injection H as <- _.
      congruence.
  - assert (K : denotes (cat (deriv c r1) r2) s
                <-> exists s1 s2, s = s1 ++ s2 /\ denotes r1 (c :: s1) /\ denotes r2 s2).
    { rewrite cat_denotes. split.
      - intros H. apply cat_inv in H. destruct H as (x & y & -> & H1 & H2).
        exists x, y. split; [reflexivity |]. split; auto. apply IHr1. auto.
      - intros (s1 & s2 & -> & H1 & H2). constructor; auto. apply IHr1. auto. }
    assert (C : denotes (Cat r1 r2) (c :: s)
                <-> (exists s1 s2, s = s1 ++ s2 /\ denotes r1 (c :: s1) /\ denotes r2 s2)
                    \/ (denotes r1 [] /\ denotes r2 (c :: s))).
    { split.
      - intros H. apply cat_inv in H. destruct H as (x & y & E & H1 & H2).
        destruct x as [| c' x].
        + simpl in E. subst y. auto.
        + simpl in E. injection E as <- ->. left. eauto.
      - intros [(s1 & s2 & -> & H1 & H2) | [H1 H2]].
        + exact (den_cat r1 r2 (c :: s1) s2 H1 H2).
        + exact (den_cat r1 r2 [] (c :: s) H1 H2). }
    rewrite C, <- nullable_denotes.
    destruct (nullable r1) eqn:N.
    + rewrite alt_denotes. split.
      * intros H. apply alt_inv in H. destruct H as [H | H].
        -- left. apply K. exact H.
        -- right. split; [reflexivity |]. apply IHr2. exact H.
      * intros [H | [_ H]].
        -- apply den_alt_l. apply K. exact H.
        -- apply den_alt_r. apply IHr2. exact H.
    + rewrite K. split; [auto |]. intros [H | [H _]]; [exact H | discriminate].
  - rewrite alt_denotes. split; intros H; apply alt_inv in H; destruct H as [H | H].
    + apply den_alt_l, IHr1; auto.
    + apply den_alt_r, IHr2; auto.
    + apply den_alt_l, IHr1; auto.
    + apply den_alt_r, IHr2; auto.
  - rewrite and_denotes. split; intros H; apply and_inv in H; destruct H;
      constructor; try (apply IHr1; auto); try (apply IHr2; auto).
  - rewrite cat_denotes. split.
    + intros H. apply cat_inv in H. destruct H as (x & y & -> & H1 & H2).
      apply IHr in H1. exact (den_star_more r (c :: x) y H1 H2).
    + intros H. apply star_cons in H. destruct H as (s1 & s2 & -> & H1 & H2).
      constructor; auto. apply IHr. auto.
Qed.

Lemma matches_denotes s : forall r, matches r s = true <-> denotes r s.
Proof.
  induction s as [| c s IH]; intros r; simpl.
  - apply nullable_denotes.
  - rewrite IH. apply deriv_denotes.
Qed.


Lemma star_cls p s : denotes (Star (Cls p)) s <-> forallb p s = true.
Proof.
  split.
  - intros H. remember (Star (Cls p)) as r eqn:Er.
    induction H as [| | | | | | a | a u1 u2 H1 _ H2 IH2]; try discriminate.
    + reflexivity.
    + injection Er as ->. apply cls_inv in H1. destruct H1 as (c & -> & Hc).
      simpl. rewrite Hc. auto.
  - induction s as [| c s IH]; simpl; [constructor |].
    rewrite andb_true_iff. intros [Hc Hs].
    exact (den_star_more (Cls p) [c] s (den_cls p c Hc) (IH Hs)).
Qed.

Lemma plus_cls p s :
  denotes (plus (Cls p)) s <-> s <> [] /\ forallb p s = true.
Proof.
  unfold plus. split.
  - intros H. apply cat_inv in H. destruct H as (x & y & -> & H1 & H2).
    apply cls_inv in H1. destruct H1 as (c & -> & Hc). apply star_cls in H2.
    simpl. rewrite Hc, H2. split; [discriminate | reflexivity].
  - destruct s as [| c s]; intros [N H]; [contradiction |].
    simpl in H. apply andb_true_iff in H. destruct H as [Hc Hs].
    apply (den_cat (Cls p) (Star (Cls p)) [c] s); [constructor; auto |].
    apply star_cls. exact Hs.
Qed.

Lemma at_least_cls p n : forall s,
  denotes (at_least n (Cls p)) s <-> n <= List.length s /\ forallb p s = true.
Proof.
  induction n as [| n IH]; intros s; simpl.
  - rewrite star_cls. split; [intros H; split; [lia | exact H] | tauto].
  - split.
    + intros H. apply cat_inv in H. destruct H as (x & y & -> & H1 & H2).
      apply cls_inv in H1. destruct H1 as (c & -> & Hc). apply IH in H2.
      simpl. rewrite Hc. destruct H2. split; [lia | auto].
    + destruct s as [| c s]; simpl; intros [L H]; [lia |].
      apply andb_true_iff in H. destruct H as [Hc Hs].
      apply (den_cat (Cls p) (at_least n (Cls p)) [c] s); [constructor; auto |].
      apply IH. split; [lia | exact Hs].
Qed.

Lemma anything_denotes s : denotes anything s.
Proof.
  apply star_cls. induction s; simpl; auto.
Qed.

(** A look-ahead [(?=.*[q])] holds at the start of [s] when a character of
    the class [q] comes after characters that are no line terminators. *)
Lemma lookahead_denotes q rest s :
  denotes (lookahead (Cat (Star (Cls dot)) (Cls q)) rest) s
  <-> (exists pre c post,
         s = pre ++ c :: post /\ forallb dot pre = true /\ q c = true)
      /\ denotes rest s.
Proof.
  unfold lookahead. split.
  - intros H. apply and_inv in H. destruct H as [H Hr]. split; [| exact Hr].
    apply cat_inv in H. destruct H as (x & post & -> & H & _).
    apply cat_inv in H. destruct H as (pre & y & -> & H1 & H2).
    apply star_cls in H1. apply cls_inv in H2. destruct H2 as (c & -> & Hc).
    exists pre, c, post. rewrite <- app_assoc. auto.
  - intros [(pre & c & post & -> & Hp & Hc) Hr]. constructor; [| exact Hr].
    change (pre ++ c :: post) with (pre ++ [c] ++ post). rewrite app_assoc.
    constructor; [| apply anything_denotes].
    constructor; [apply star_cls; exact Hp | constructor; exact Hc].
Qed.

Lemma class_occurs q s :
  forallb dot s = true ->
  (exists pre c post, s = pre ++ c :: post /\ forallb dot pre = true /\ q c = true)
  <-> existsb q s = true.
Proof.
  intros D. rewrite existsb_exists. split.
  - intros (pre & c & post & -> & _ & Hc). exists c. split; [| exact Hc].
    apply in_elt.
  - intros (c & Hin & Hc). apply in_split in Hin. destruct Hin as (pre & post & ->).
    exists pre, c, post. rewrite forallb_app in D. apply andb_true_iff in D.
    tauto.
Qed.

(** X1.  [isStrongPassword] accepts exactly the passwords of at least 8
    code units, none of them a line terminator, that hold a lower-case
    letter, an upper-case letter, a digit and a symbol of the class. *)
Theorem isStrongPassword_spec s :
  isStrongPassword s
  = (8 <=? List.length s) && forallb dot s
    && existsb lower s && existsb upper s && existsb digit s && existsb symbol s.
Proof.
  apply eq_iff_eq_true. unfold isStrongPassword, strongPasswordRegex.
  rewrite matches_denotes, !lookahead_denotes, at_least_cls.
  rewrite !andb_true_iff, Nat.leb_le.
  split.
  - intros (L & U & D & Y & Len & Dot).
    rewrite <- !(class_occurs _ s Dot). tauto.
  - intros (((((Len & Dot) & L) & U) & D) & Y).
    rewrite !(class_occurs _ s Dot). tauto.
Qed.

Lemma valid_email_parts s :
  isValidEmail s = true ->
  exists loc dom tld,
    s = loc ++ N_of_ascii "@" :: dom ++ N_of_ascii "." :: tld
    /\ loc <> [] /\ dom <> [] /\ tld <> []
    /\ forallb not_space_or_at (loc ++ dom ++ tld) = true.
Proof.
  unfold isValidEmail, emailRegex. rewrite matches_denotes. intros H.
  apply cat_inv in H. destruct H as (loc & r1 & -> & Hl & H).
  apply cat_inv in H. destruct H as (at_ & r2 & -> & Ha & H).
  apply cat_inv in H. destruct H as (dom & r3 & -> & Hd & H).
  apply cat_inv in H. destruct H as (dot_ & tld & -> & Hp & Ht).
  apply plus_cls in Hl, Hd, Ht.
  apply cls_inv in Ha. destruct Ha as (a & -> & Ha). apply N.eqb_eq in Ha.
  apply cls_inv in Hp. destruct Hp as (d & -> & Hp). apply N.eqb_eq in Hp.
  subst a d. exists loc, dom, tld.
  rewrite !forallb_app, !andb_true_iff. simpl. tauto.
Qed.

(** X2.  [isValidEmail] accepts exactly the strings made of a local part,
    an [@], a domain, a dot and an ending, the three parts non-empty and
    free of white space and of [@]. *)
Theorem isValidEmail_spec s :
  isValidEmail s = true
  <-> exists loc dom tld,
        s = loc ++ N_of_ascii "@" :: dom ++ N_of_ascii "." :: tld
        /\ loc <> [] /\ dom <> [] /\ tld <> []
        /\ forallb not_space_or_at (loc ++ dom ++ tld) = true.
Proof.
  split; [apply valid_email_parts |].
  unfold isValidEmail, emailRegex. rewrite matches_denotes.
  intros (loc & dom & tld & -> & Nl & Nd & Nt & F).
  rewrite !forallb_app, !andb_true_iff in F. destruct F as (Fl & Fd & Ft).
  change (loc ++ N_of_ascii "@" :: dom ++ N_of_ascii "." :: tld)
    with (loc ++ [N_of_ascii "@"] ++ dom ++ [N_of_ascii "."] ++ tld).
  constructor; [apply plus_cls; auto |].
  constructor; [constructor; apply N.eqb_refl |].
  constructor; [apply plus_cls; auto |].
  constructor; [constructor; apply N.eqb_refl |].
  apply plus_cls; auto.
Qed.

Lemma plain_part l :
  forallb not_space_or_at l = true ->
  forallb (fun c => negb (space c)) l = true
  /\ count_occ N.eq_dec l (N_of_ascii "@") = 0.
Proof.
  induction l as [| c l IH]; cbn [forallb]; [auto |].
  rewrite andb_true_iff. intros [Hc Hl]. destruct (IH Hl) as [A B].
  unfold not_space_or_at in Hc. rewrite negb_true_iff, orb_false_iff in Hc.
  destruct Hc as [Hs Ha]. rewrite Hs, A. split; [reflexivity |].
  apply N.eqb_neq in Ha. rewrite count_occ_cons_neq by exact Ha. exact B.
Qed.

(** X3.  An email that [isValidEmail] accepts has exactly one [@], no
    white space, and at least 5 code units. *)
Theorem valid_email_shape s :
  isValidEmail s = true ->
  count_occ N.eq_dec s (N_of_ascii "@") = 1
  /\ forallb (fun c => negb (space c)) s = true
  /\ 5 <= List.length s.
Proof.
  intros H. apply valid_email_parts in H.
  destruct H as (loc & dom & tld & -> & Nl & Nd & Nt & F).
  rewrite !forallb_app, !andb_true_iff in F. destruct F as (Fl & Fd & Ft).
  apply plain_part in Fl, Fd, Ft.
  destruct Fl as [Sl Cl], Fd as [Sd Cd], Ft as [St Ct].
  split; [| split].
  - rewrite count_occ_app. cbn [count_occ].
    destruct (N.eq_dec (N_of_ascii "@") (N_of_ascii "@")) as [_ | E];
      [| contradiction E; reflexivity].
    rewrite count_occ_app. cbn [count_occ].
    destruct (N.eq_dec (N_of_ascii ".") (N_of_ascii "@")) as [E | _];
      [discriminate E |].
    rewrite Cl, Cd, Ct. reflexivity.
  - rewrite forallb_app. cbn [forallb]. rewrite forallb_app. cbn [forallb].
    rewrite Sl, Sd, St. reflexivity.
  - rewrite length_app. cbn [List.length]. rewrite length_app. cbn [List.length].
    destruct loc, dom, tld; try contradiction; cbn [List.length]; lia.
Qed.

(** ** Concrete runs *)

Lemma valid_email_shape_sample :
  count_occ N.eq_dec js:"alice@example.com" (N_of_ascii "@") = 1
  /\ forallb (fun c => negb (space c)) js:"alice@example.com" = true
  /\ 5 <= List.length js:"alice@example.com".
Proof.
  apply (valid_email_shape js:"alice@example.com"). vm_compute. reflexivity.
Defined.

End RegexProps.

(** * More on [auth-actions.ts] *)

Module AuthMore.

Import AuthActions Policy Notions.

Lemma register_run w d :
  run (register d) w
  = if negb (isValidEmail (reg_email d))
    then (rejected js:"Invalid email format.", w)
    else if negb (isStrongPassword (reg_password d))
    then (rejected weak_password_message, w)
    else
      (match signUp (idp w) (reg_email d) (reg_password d)
               (new_account (reg_name d)) with
       | Some _ => rejected js:"Registration failed."
       | None => accepted
       end,
       asked (SignUp (reg_email d) (reg_password d) (new_account (reg_name d))) w).
Proof.
  unfold register.
  destruct (isValidEmail (reg_email d)); [| reflexivity].
  destruct (isStrongPassword (reg_password d)); [| reflexivity].
  cbn [negb]. unfold run. cbn.
  change {| User.name := Some (reg_name d); User.is_admin := Some false |}
    with (new_account (reg_name d)).
  destruct (signUp (idp w) _ _ _); reflexivity.
Qed.

Lemma login_run w d :
  run (login d) w
  = if negb (isValidEmail (email d)) || negb (isStrongPassword (password d))
    then (invalid_credentials, w)
    else
      match signInWithPassword (idp w) (email d) (password d) with
      | inl u =>
          (accepted,
           with_session (Some u) (asked (SignIn (email d) (password d)) w))
      | inr _ => (invalid_credentials, asked (SignIn (email d) (password d)) w)
      end.
Proof.
  unfold login.
  destruct (negb (isValidEmail (email d)) || negb (isStrongPassword (password d)));
    [reflexivity |].
  unfold run. cbn. destruct (signInWithPassword (idp w) _ _); reflexivity.
Qed.

Lemma logout_run w :
  run logout w
  = match signOut (idp w) with
    | None => (accepted, with_session None (asked SignOut w))
    | Some e => (rejected (AuthError.message e), asked SignOut w)
    end.
Proof.
  unfold logout, run. cbn. destruct (signOut (idp w)); reflexivity.
Qed.

(** X4.  Whatever the input, [register] sends the provider at most one
    request, a sign-up whose metadata carry the given name and
    [is_admin: false], and it leaves the session as it was. *)
Theorem register_never_grants_admin w d :
  (idp_requests (after (register d) w) = idp_requests w
   \/ idp_requests (after (register d) w)
      = idp_requests w
        ++ [SignUp (reg_email d) (reg_password d)
              {| User.name := Some (reg_name d); User.is_admin := Some false |}])
  /\ session (after (register d) w) = session w.
Proof.
  unfold after. rewrite register_run.
  destruct (negb (isValidEmail (reg_email d))); [auto |].
  destruct (negb (isStrongPassword (reg_password d))); [auto |].
  split; [right |]; reflexivity.
Qed.

(** X5.  With a well-formed email, [register] answers a weak password
    with the message that lists the requirements, without a request to the
    provider; a sign-up the provider refuses, for whatever reason, with
    "Registration failed."; and a sign-up it accepts with no error. *)
Theorem register_outcomes w d :
  (isValidEmail (reg_email d) = true -> isStrongPassword (reg_password d) = false ->
   run (register d) w = (rejected weak_password_message, w))
  /\ (forall e,
        isValidEmail (reg_email d) = true -> isStrongPassword (reg_password d) = true ->
        signUp (idp w) (reg_email d) (reg_password d) (new_account (reg_name d))
          = Some e ->
        result (register d) w = rejected js:"Registration failed.")
  /\ (isValidEmail (reg_email d) = true -> isStrongPassword (reg_password d) = true ->
      signUp (idp w) (reg_email d) (reg_password d) (new_account (reg_name d))
        = None ->
      result (register d) w = accepted).
Proof.
  unfold result. rewrite register_run. split; [| split].
  - intros -> ->. reflexivity.
  - intros e -> -> ->. reflexivity.
  - intros -> -> ->. reflexivity.
Qed.

(** X6.  A [login] the provider accepts returns no error and makes the
    provider's user the current user, as [getCurrentUser] then reports; a
    [login] that returns an error leaves the session as it was. *)
Theorem login_and_session w d :
  (forall u,
     isValidEmail (email d) = true -> isStrongPassword (password d) = true ->
     signInWithPassword (idp w) (email d) (password d) = inl u ->
     result (login d) w = accepted
     /\ result getCurrentUser (after (login d) w) = Some u)
  /\ (Res.error (result (login d) w) <> None ->
      session (after (login d) w) = session w).
Proof.
  unfold result, after. rewrite login_run. split.
  - intros u -> -> ->. split; reflexivity.
  - destruct (_ || _); [reflexivity |].
    destruct (signInWithPassword (idp w) _ _); [| reflexivity].
    intros H. contradiction H. reflexivity.
Qed.

(** X7.  A [logout] the provider accepts ends the session: afterwards
    [getCurrentUser] returns nobody and [getUserPolls] answers "Not
    authenticated".  A [logout] the provider refuses returns the provider's
    message as it is and keeps the session. *)
Theorem logout_and_session w :
  (signOut (idp w) = None ->
   result logout w = accepted
   /\ result getCurrentUser (after logout w) = None
   /\ result PollActions.getUserPolls (after logout w)
      = {| PollsRes.polls := []; PollsRes.error := Some js:"Not authenticated" |})
  /\ (forall e, signOut (idp w) = Some e ->
        result logout w = rejected (AuthError.message e)
        /\ session (after logout w) = session w).
Proof.
  unfold result, after. rewrite logout_run. split.
  - intros ->. cbn [fst snd]. split; [reflexivity |]. split; [reflexivity |].
    rewrite PollProps.getUserPolls_unauthenticated_run; reflexivity.
  - intros e ->. split; reflexivity.
Qed.

(** X8.  [login], [register] and [logout] never touch the data store:
    the two tables are as before and no request was sent to it. *)
Theorem auth_actions_leave_store w :
  (forall d, polls (after (login d) w) = polls w
             /\ votes (after (login d) w) = votes w
             /\ upstream (after (login d) w) = upstream w)
  /\ (forall d, polls (after (register d) w) = polls w
                /\ votes (after (register d) w) = votes w
                /\ upstream (after (register d) w) = upstream w)
  /\ (polls (after logout w) = polls w
      /\ votes (after logout w) = votes w
      /\ upstream (after logout w) = upstream w).
Proof.
  unfold after. split; [| split].
  - intros d. rewrite login_run. destruct (_ || _); [auto |].
    destruct (signInWithPassword (idp w) _ _); auto.
  - intros d. rewrite register_run.
    destruct (negb (isValidEmail (reg_email d))); [auto |].
    destruct (negb (isStrongPassword (reg_password d))); auto.
  - rewrite logout_run. destruct (signOut (idp w)); auto.
Qed.

(** ** Concrete runs *)

Lemma register_outcomes_sample :
  run (register {| reg_email := js:"carol@example.com"; reg_password := js:"horse";
                   reg_name := js:"Carol" |}) Sample.world
    = (rejected weak_password_message, Sample.world)
  /\ result (register signup_form) (with_idp closed Sample.world)
     = rejected js:"Registration failed."
  /\ result (register signup_form) Sample.world = accepted.
Proof.
  split; [| split].
  - destruct (register_outcomes Sample.world
                {| reg_email := js:"carol@example.com"; reg_password := js:"horse";
                   reg_name := js:"Carol" |}) as (A & _).
    apply A; vm_compute; reflexivity.
  - destruct (register_outcomes (with_idp closed Sample.world) signup_form)
      as (_ & A & _).
    apply (A {| AuthError.message := js:"email taken" |}); vm_compute; reflexivity.
  - destruct (register_outcomes Sample.world signup_form) as (_ & _ & A).
    apply A; vm_compute; reflexivity.
Defined.

Lemma login_and_session_sample :
  result (login {| email := js:"alice@example.com"; password := js:"Correct.h0rse" |})
    Sample.world = accepted
  /\ result getCurrentUser
       (after (login {| email := js:"alice@example.com";
                        password := js:"Correct.h0rse" |}) Sample.world)
     = Some Sample.alice
  /\ session (after (login Sample.wrong_password) (Sample.signed_in Sample.bob))
     = Some Sample.bob.
Proof.
  destruct (login_and_session Sample.world
              {| email := js:"alice@example.com"; password := js:"Correct.h0rse" |})
    as (A & _).
  destruct (A Sample.alice) as (R & C); try (vm_compute; reflexivity).
  split; [exact R |]. split; [exact C |].
  destruct (login_and_session (Sample.signed_in Sample.bob) Sample.wrong_password)
    as (_ & B).
  apply B. vm_compute. discriminate.
Defined.

Lemma logout_and_session_sample :
  (result logout (Sample.signed_in Sample.alice) = accepted
   /\ result getCurrentUser (after logout (Sample.signed_in Sample.alice)) = None)
  /\ result logout (with_idp closed (Sample.signed_in Sample.alice))
     = rejected js:"network error"
  /\ session (after logout (with_idp closed (Sample.signed_in Sample.alice)))
     = Some Sample.alice.
Proof.
  destruct (logout_and_session (Sample.signed_in Sample.alice)) as (A & _).
  destruct (A eq_refl) as (R & C & _).
  split; [split; [exact R | exact C] |].
  destruct (logout_and_session (with_idp closed (Sample.signed_in Sample.alice)))
    as (_ & B).
  exact (B {| AuthError.message := js:"network error" |} eq_refl).
Defined.

End AuthMore.

(** * More on [poll-actions.ts] *)

Module PollMore.

Import Store PollActions Policy PollProps Notions.

Lemma served_cases w :
  served w \/ exists e rest, upstream w = Some e :: rest.
Proof.
  unfold served. destruct (upstream w) as [| [e |] rest]; eauto.
Qed.

Lemma getUserPolls_full w :
  run getUserPolls w
  = match session w with
    | None => (not_authenticated, asked GetUser w)
    | Some u =>
        match upstream w with
        | Some e :: rest =>
            (failed_listing e, with_upstream rest (asked GetUser w))
        | _ =>
            (listed (listing (filter (owned_by (User.id u)) (polls w))),
             answered (asked GetUser w))
        end
    end.
Proof.
  unfold getUserPolls. rewrite run_bind, getUser_run.
  destruct (session w) as [u |]; [| reflexivity].
  rewrite run_bind.
  assert (M : forall l,
             filter (matching Polls
                       (all |> eq "user_id" (VStr (User.id u))
                            |> order "created_at" false)) l
             = filter (owned_by (User.id u)) l).
  { intros l. apply filter_ext. intros p. cbn. apply andb_true_r. }
  destruct (upstream w) as [| [e |] rest] eqn:U.
  - rewrite select_served by (unfold served, asked; cbn; rewrite U; exact I).
    cbn [rows Polls polls answered asked with_upstream with_idp_requests].
    rewrite M. reflexivity.
  - unfold select. rewrite run_bind, (request_refused (asked GetUser w) e rest U).
    reflexivity.
  - rewrite select_served by (unfold served, asked; cbn; rewrite U; exact I).
    cbn [rows Polls polls answered asked with_upstream with_idp_requests].
    rewrite M. reflexivity.
Qed.

Lemma getAdminPolls_full w :
  run getAdminPolls w
  = match session w with
    | None => (unauthorized, asked GetUser w)
    | Some u =>
        if User.is_admin_strict u then
          match upstream w with
          | Some e :: rest =>
              (failed_listing e, with_upstream rest (asked GetUser w))
          | _ => (listed (listing (polls w)), answered (asked GetUser w))
          end
        else (unauthorized, asked GetUser w)
    end.
Proof.
  unfold getAdminPolls. rewrite run_bind, getCurrentUser_run.
  destruct (session w) as [u |]; [| reflexivity].
  replace (User.is_admin_truthy u) with (User.is_admin_strict u)
    by (unfold User.is_admin_truthy, User.is_admin_strict;
        destruct (User.is_admin (User.user_metadata u)) as [[|] |]; reflexivity).
  destruct (User.is_admin_strict u); [| reflexivity]. cbn [negb].
  rewrite run_bind.
  destruct (upstream w) as [| [e |] rest] eqn:U.
  - rewrite select_served by (unfold served, asked; cbn; rewrite U; exact I).
    cbn [rows Polls polls answered asked with_upstream with_idp_requests].
    cbn [matching filters all order]. cbn [forallb]. 
    rewrite filter_all by reflexivity. reflexivity.
  - unfold select. rewrite run_bind, (request_refused (asked GetUser w) e rest U).
    reflexivity.
  - rewrite select_served by (unfold served, asked; cbn; rewrite U; exact I).
    cbn [rows Polls polls answered asked with_upstream with_idp_requests].
    rewrite filter_all by reflexivity. reflexivity.
Qed.

(** ** Listings *)

Lemma place_perm x l :
  Permutation (place Polls "created_at" false x l) (x :: l).
Proof.
  induction l as [| y l IH]; cbn [place]; [reflexivity |].
  destruct (before Polls "created_at" false x y); [reflexivity |].
  rewrite IH. apply perm_swap.
Qed.

Lemma listing_perm l : Permutation (listing l) l.
Proof.
  induction l as [| x l IH]; cbn [listing fold_right]; [constructor |].
  fold (listing l). rewrite place_perm. constructor. exact IH.
Qed.

Lemma before_created_at x y :
  before Polls "created_at" false x y = (Poll.created_at y <? Poll.created_at x).
Proof.
  change (before Polls "created_at" false x y)
    with (Z.ltb (Z.of_nat (Poll.created_at y)) (Z.of_nat (Poll.created_at x))).
  destruct (Nat.ltb_spec (Poll.created_at y) (Poll.created_at x)) as [L | L];
    [apply Z.ltb_lt | apply Z.ltb_ge]; lia.
Qed.

Lemma place_newest_first x l :
  newest_first l -> newest_first (place Polls "created_at" false x l).
Proof.
  unfold newest_first. induction l as [| y l IH]; cbn [place]; intros H.
  - repeat constructor.
  - apply StronglySorted_inv in H. destruct H as [Hl Hy].
    rewrite before_created_at.
    destruct (Nat.ltb_spec (Poll.created_at y) (Poll.created_at x)) as [L | L].
    + constructor; [constructor; assumption |].
      constructor; [unfold not_older; lia |].
      eapply Forall_impl; [| exact Hy]. unfold not_older. intros z Hz. lia.
    + constructor; [apply IH; exact Hl |].
      eapply Permutation_Forall; [symmetry; apply place_perm |].
      constructor; [exact L | exact Hy].
Qed.

Lemma listing_newest_first l : newest_first (listing l).
Proof.
  induction l as [| x l IH]; cbn [listing fold_right]; [constructor |].
  apply place_newest_first. exact IH.
Qed.

(** X9.  For a signed-in caller whom the store serves, [getUserPolls]
    returns, without error, the stored polls of the caller, each as often
    as it is stored and no other, the newest first. *)
Theorem getUserPolls_lists_own_polls w u :
  session w = Some u -> served w ->
  PollsRes.error (result getUserPolls w) = None
  /\ Permutation (PollsRes.polls (result getUserPolls w))
       (filter (fun p => Js.eqb (Poll.user_id p) (User.id u)) (polls w))
  /\ newest_first (PollsRes.polls (result getUserPolls w))
  /\ (forall p, In p (PollsRes.polls (result getUserPolls w))
                <-> In p (polls w) /\ Poll.user_id p = User.id u).
Proof.
  intros Hs Sv. unfold result. rewrite getUserPolls_full, Hs.
  assert (E : match upstream w with
              | Some e :: rest =>
                  (failed_listing e, with_upstream rest (asked GetUser w))
              | _ => (listed (listing (filter (owned_by (User.id u)) (polls w))),
                      answered (asked GetUser w))
              end
              = (listed (listing (filter (owned_by (User.id u)) (polls w))),
                 answered (asked GetUser w))).
  { unfold served in Sv. destruct (upstream w) as [| [e |] rest];
      [reflexivity | contradiction | reflexivity]. }
  rewrite E. cbn [fst listed PollsRes.polls PollsRes.error].
  split; [reflexivity |]. split; [apply listing_perm |].
  split; [apply listing_newest_first |].
  intros p. split.
  - intros H. apply (Permutation_in _ (listing_perm _)) in H.
    apply filter_In in H. destruct H as [H O]. apply eqb_eq in O. auto.
  - intros [H O]. apply (Permutation_in _ (Permutation_sym (listing_perm _))).
    apply filter_In. split; [exact H |]. apply eqb_eq. exact O.
Qed.

(** X10.  In every world, whatever the store answers, a poll listed by
    [getUserPolls] is a stored poll owned by the signed-in caller. *)
Theorem getUserPolls_never_lists_foreign_polls w p :
  In p (PollsRes.polls (result getUserPolls w)) ->
  In p (polls w) /\ exists u, session w = Some u /\ Poll.user_id p = User.id u.
Proof.
  unfold result. rewrite getUserPolls_full.
  destruct (session w) as [u |]; [| intros []].
  destruct (upstream w) as [| [e |] rest]; cbn [fst listed PollsRes.polls];
    try (intros []);
    intros H; apply (Permutation_in _ (listing_perm _)) in H;
    apply filter_In in H; destruct H as [H O]; apply eqb_eq in O; eauto.
Qed.

(** X11.  [getAdminPolls] returns to an administrator whom the store
    serves all the stored polls, the newest first; to anybody else,
    anonymous or signed in, the empty list with "Unauthorized access.",
    and then the store is not asked. *)
Theorem getAdminPolls_access w :
  (forall u, session w = Some u ->
             User.is_admin (User.user_metadata u) = Some true -> served w ->
             PollsRes.error (result getAdminPolls w) = None
             /\ Permutation (PollsRes.polls (result getAdminPolls w)) (polls w)
             /\ newest_first (PollsRes.polls (result getAdminPolls w)))
  /\ ((session w = None
       \/ exists u, session w = Some u
                    /\ User.is_admin (User.user_metadata u) <> Some true) ->
      run getAdminPolls w
        = ({| PollsRes.polls := [];
              PollsRes.error := Some js:"Unauthorized access." |},
           asked GetUser w)).
Proof.
  rewrite getAdminPolls_full. unfold result. rewrite getAdminPolls_full. split.
  - intros u Hs Ha Sv. rewrite Hs. unfold User.is_admin_strict. rewrite Ha.
    unfold served in Sv. destruct (upstream w) as [| [e |] rest];
      try contradiction; cbn [fst listed PollsRes.polls PollsRes.error];
      (split; [reflexivity |]); (split; [apply listing_perm |]);
      apply listing_newest_first.
  - intros [Hs | (u & Hs & Ha)]; rewrite Hs; [reflexivity |].
    unfold User.is_admin_strict.
    destruct (User.is_admin (User.user_metadata u)) as [[|] |];
      [contradiction Ha |..]; reflexivity.
Qed.

(** ** Lookup *)


Lemma visible_canRead caller p : visible_to caller p = canRead caller p.
Proof.
  unfold visible_to, canRead. destruct caller as [u |].
  - destruct (User.is_admin_strict u), (Poll.is_public p),
      (Js.eqb (Poll.user_id p) (User.id u)); reflexivity.
  - destruct (Poll.is_public p); reflexivity.
Qed.

Lemma getPollById_full id w :
  run (getPollById id) w
  = match upstream w with
    | Some e :: rest =>
        ({| PollRes.poll := None; PollRes.error := Some (PgError.message e) |},
         with_upstream rest (asked GetUser w))
    | _ =>
        (match filter (fun p => Js.eqb (Poll.id p) id && visible_to (session w) p)
                 (polls w) with
         | [p] => found p
         | _ => not_found
         end, answered (asked GetUser w))
    end.
Proof.
  unfold getPollById. rewrite run_bind, getCurrentUser_run. rewrite run_bind.
  set (q := match session w with Some _ => _ | None => _ end).
  assert (M : forall l,
             filter (matching Polls q) l
             = filter (fun p => Js.eqb (Poll.id p) id && visible_to (session w) p) l).
  { intros l. apply filter_ext. intros p. unfold q, visible_to.
    destruct (session w) as [u |]; [destruct (User.is_admin_strict u) |]; cbn;
      rewrite ?andb_true_r; reflexivity. }
  destruct (upstream w) as [| [e |] rest] eqn:U.
  - rewrite select_single_served by (unfold served, asked; cbn; rewrite U; exact I).
    cbn [rows Polls polls answered asked with_upstream with_idp_requests].
    rewrite M. destruct (filter _ _) as [| p [| p' l]]; reflexivity.
  - rewrite (select_single_refused _ _ (asked GetUser w) e rest U). reflexivity.
  - rewrite select_single_served by (unfold served, asked; cbn; rewrite U; exact I).
    cbn [rows Polls polls answered asked with_upstream with_idp_requests].
    rewrite M. destruct (filter _ _) as [| p [| p' l]]; reflexivity.
Qed.

(** X12.  In every world, even with repeated ids in the table, a poll
    returned by [getPollById] is a stored poll with the requested id that
    the caller may read, and it comes without an error. *)
Theorem getPollById_never_leaks id w p :
  PollRes.poll (result (getPollById id) w) = Some p ->
  In p (polls w) /\ Poll.id p = id /\ canRead (session w) p = true
  /\ PollRes.error (result (getPollById id) w) = None.
Proof.
  unfold result. rewrite getPollById_full.
  assert (K : PollRes.poll
                match filter (fun p => Js.eqb (Poll.id p) id
                                       && visible_to (session w) p) (polls w) with
                | [p] => found p
                | _ => not_found
                end = Some p ->
              In p (polls w) /\ Poll.id p = id /\ canRead (session w) p = true
              /\ PollRes.error
                   match filter (fun p => Js.eqb (Poll.id p) id
                                          && visible_to (session w) p) (polls w) with
                   | [p] => found p
                   | _ => not_found
                   end = None).
  { destruct (filter _ _) as [| r [| r' l]] eqn:F; try discriminate.
    intros H. injection H as <-.
    assert (Hin : In r (filter (fun p => Js.eqb (Poll.id p) id
                                         && visible_to (session w) p) (polls w)))
      by (rewrite F; left; reflexivity).
    apply filter_In in Hin. destruct Hin as [Hin Hm].
    apply andb_true_iff in Hm. destruct Hm as [Hi Hv].
    apply eqb_eq in Hi. rewrite visible_canRead in Hv. auto. }
  destruct (upstream w) as [| [e |] rest]; cbn [fst]; try exact K.
  discriminate.
Qed.

(** X13.  An id that no stored poll has is not found by [getPollById],
    for every caller, administrators included. *)
Theorem getPollById_unknown id w :
  served w -> ~ In id (map Poll.id (polls w)) ->
  result (getPollById id) w = not_found.
Proof.
  intros Sv N. unfold result. rewrite getPollById_full.
  rewrite filter_none.
  - unfold served in Sv. destruct (upstream w) as [| [e |] rest];
      [reflexivity | contradiction | reflexivity].
  - intros p Hp. rewrite eqb_neq; [reflexivity |].
    intros E. apply N. rewrite <- E. apply in_map. exact Hp.
Qed.

(** ** Deletion *)

Lemma deletePoll_full id w :
  run (deletePoll id) w
  = match session w with
    | None => (rejected login_to_delete, asked GetUser w)
    | Some u =>
        match upstream w with
        | Some e :: rest =>
            (rejected (PgError.message e), with_upstream rest (asked GetUser w))
        | _ =>
            (accepted,
             with_revalidated (revalidated w ++ [js:"/polls"])
               (with_polls
                  (filter (fun r => negb (Js.eqb (Poll.id r) id
                                          && (User.is_admin_strict u
                                              || Js.eqb (Poll.user_id r) (User.id u))))
                     (polls w))
                  (answered (asked GetUser w))))
        end
    end.
Proof.
  unfold deletePoll. rewrite run_bind, getCurrentUser_run.
  destruct (session w) as [u |]; [| reflexivity].
  rewrite run_bind.
  set (q := if negb (User.is_admin_strict u) then _ else _).
  assert (M : forall l,
             filter (fun r => negb (matching Polls q r)) l
             = filter (fun r => negb (Js.eqb (Poll.id r) id
                                      && (User.is_admin_strict u
                                          || Js.eqb (Poll.user_id r) (User.id u)))) l).
  { intros l. apply filter_ext. intros r. unfold q.
    destruct (User.is_admin_strict u); cbn; rewrite ?andb_true_r; reflexivity. }
  destruct (upstream w) as [| [e |] rest] eqn:U.
  - rewrite delete_served by (unfold served, asked; cbn; rewrite U; exact I).
    cbn [rows with_rows Polls polls answered asked with_upstream with_idp_requests].
    rewrite M. reflexivity.
  - unfold delete. rewrite run_bind, (request_refused (asked GetUser w) e rest U).
    reflexivity.
  - rewrite delete_served by (unfold served, asked; cbn; rewrite U; exact I).
    cbn [rows with_rows Polls polls answered asked with_upstream with_idp_requests].
    rewrite M. reflexivity.
Qed.

(** X14.  In every world, [deletePoll] leaves a stored poll in place when
    its id is not the requested one, when nobody is signed in, or when the
    caller is neither its owner nor an administrator. *)
Theorem deletePoll_spares id w r :
  In r (polls w) ->
  (Poll.id r <> id
   \/ session w = None
   \/ exists u, session w = Some u
                /\ User.is_admin (User.user_metadata u) <> Some true
                /\ Poll.user_id r <> User.id u) ->
  In r (polls (after (deletePoll id) w)).
Proof.
  intros Hin Hc. unfold after. rewrite deletePoll_full.
  destruct (session w) as [u |]; [| exact Hin].
  destruct (upstream w) as [| [e |] rest]; cbn [snd polls with_polls with_revalidated];
    try exact Hin;
    (apply filter_In; split; [exact Hin |]);
    (destruct Hc as [Hc | [Hc | (u' & Hs & Ha & Ho)]];
     [rewrite (eqb_neq _ _ Hc); reflexivity
     | discriminate
     | injection Hs as <-; rewrite (eqb_neq _ _ Ho);
       unfold User.is_admin_strict;
       destruct (User.is_admin (User.user_metadata u)) as [[|] |];
       [contradiction Ha | |]; destruct (Js.eqb (Poll.id r) id); reflexivity]).
Qed.

(** X15.  [deletePoll] adds no poll and touches no vote: the votes of a
    deleted poll stay in their table.  Without a session it answers "You
    must be logged in to delete a poll." and the store is not asked. *)
Theorem deletePoll_only_removes id w :
  (forall r, In r (polls (after (deletePoll id) w)) -> In r (polls w))
  /\ votes (after (deletePoll id) w) = votes w
  /\ (session w = None ->
      run (deletePoll id) w
        = (rejected js:"You must be logged in to delete a poll.", asked GetUser w)).
Proof.
  unfold after. rewrite deletePoll_full.
  destruct (session w) as [u |].
  - destruct (upstream w) as [| [e |] rest];
      cbn [snd polls votes with_polls with_revalidated];
      (split; [| split; [reflexivity | discriminate]]);
      intros r H; try exact H; apply filter_In in H; tauto.
  - split; [auto |]. split; reflexivity.
Qed.

(** ** Creation and update *)


Lemma valid_input_well_formed sanitize fd :
  valid_input sanitize fd ->
  question_of sanitize fd <> []
  /\ List.length (question_of sanitize fd) <= 255
  /\ 2 <= List.length (options_of sanitize fd) <= 10
  /\ Forall (fun o => List.length o <= 100) (options_of sanitize fd).
Proof.
  unfold valid_input, no_question, too_few_options, question_too_long,
    too_many_options, option_too_long.
  intros (H1 & H2 & H3 & H4 & H5).
  split; [exact H1 |]. split; [lia |]. split; [lia |].
  apply Forall_Exists_neg in H5. eapply Forall_impl; [| exact H5].
  cbv beta. intros o Ho. lia.
Qed.

(** X16.  A signed-in caller with a valid input, served by the store,
    creates a poll: the new row is appended with the caller as owner and
    the sanitized question and options, the listing path is marked stale,
    and when the generated id is fresh, [getPollById] on that id returns
    the new row to its creator. *)
Theorem createPoll_then_getPollById sanitize fd w u :
  session w = Some u -> session_error w = None -> healthy w ->
  valid_input sanitize fd ->
  primary_key (polls w) -> ~ In (uuid w (serial w)) (map Poll.id (polls w)) ->
  result (createPoll sanitize fd) w = accepted
  /\ polls (after (createPoll sanitize fd) w)
     = polls w ++ [new_poll sanitize fd u w]
  /\ revalidated (after (createPoll sanitize fd) w) = revalidated w ++ [js:"/polls"]
  /\ result (getPollById (uuid w (serial w))) (after (createPoll sanitize fd) w)
     = found (new_poll sanitize fd u w).
Proof.
  intros Hs He Hh V K F.
  pose proof (healthy_served _ Hh) as Sv.
  pose proof (healthy_served _ (healthy_answered _ Hh)) as Sv'.
  tests_of V.
  unfold result, after. rewrite createPoll_unfold, T1, T2, T3, T4, Hs, He.
  fold (new_poll sanitize fd u w).
  set (w1 := with_revalidated _ _).
  assert (E : match upstream w with
              | Some e :: rest =>
                  (rejected (PgError.message e), with_upstream rest (asked GetUser w))
              | _ => (accepted, w1)
              end = (accepted, w1)).
  { unfold served in Sv. destruct (upstream w) as [| [e |] rest];
      [reflexivity | contradiction | reflexivity]. }
  rewrite E. cbn [fst snd].
  split; [reflexivity |]. split; [reflexivity |]. split; [reflexivity |].
  assert (K1 : primary_key (polls w1)).
  { unfold primary_key, w1. cbn [polls with_revalidated with_serial with_polls].
    rewrite map_app. cbn [map new_poll Poll.id].
    apply (Permutation_NoDup (l := uuid w (serial w) :: map Poll.id (polls w))).
    - apply Permutation_cons_append.
    - constructor; assumption. }
  assert (I1 : In (new_poll sanitize fd u w) (polls w1)).
  { unfold w1. cbn [polls with_revalidated with_serial with_polls].
    apply in_or_app. right. left. reflexivity. }
  change (uuid w (serial w)) with (Poll.id (new_poll sanitize fd u w)).
  rewrite (getPollById_run w1 _ Sv' K1 I1). cbn [fst].
  unfold canRead. change (session w1) with (session w). rewrite Hs.
  cbn [new_poll Poll.user_id]. rewrite eqb_refl, orb_true_r. reflexivity.
Qed.

(** X17.  [createPoll] and [updatePoll] keep the invariant of the data
    model in every world and for every input: if every stored poll has a
    non-empty question of at most 255 characters and 2 to 10 options of at
    most 100 characters each, so has every stored poll afterwards. *)
Theorem poll_writes_keep_well_formed sanitize fd pollId w :
  Forall well_formed (polls w) ->
  Forall well_formed (polls (after (createPoll sanitize fd) w))
  /\ Forall well_formed (polls (after (updatePoll sanitize pollId fd) w)).
Proof.
  intros Inv. unfold after. rewrite createPoll_unfold, updatePoll_unfold.
  destruct (test1 sanitize fd) eqn:T1; [auto |].
  destruct (test2 sanitize fd) eqn:T2; [auto |].
  destruct (test3 sanitize fd) eqn:T3; [auto |].
  destruct (test4 sanitize fd) eqn:T4; [auto |].
  assert (V : valid_input sanitize fd) by (apply valid_input_spec; auto).
  apply valid_input_well_formed in V.
  destruct (session_error w); [auto |].
  destruct (session w) as [u |]; [| auto].
  destruct (upstream w) as [| [e |] rest];
    cbn [snd polls with_polls with_revalidated with_serial]; auto;
    (split;
     [apply Forall_app; split; [exact Inv | constructor; [exact V | constructor]]
     | apply Forall_map; eapply Forall_impl; [| exact Inv];
       intros r Hr; cbv beta; destruct (_ && _); [exact V | exact Hr]]).
Qed.

(** X18.  The owner of a stored poll, with a valid input and served by
    the store, updates it: question and options are replaced by the
    sanitized ones, every other column of the row is kept, and the listing
    path is not marked stale. *)
Theorem updatePoll_rewrites_own_poll sanitize fd w u i p :
  session w = Some u -> session_error w = None -> served w ->
  valid_input sanitize fd ->
  nth_error (polls w) i = Some p -> Poll.user_id p = User.id u ->
  result (updatePoll sanitize (Poll.id p) fd) w = accepted
  /\ nth_error (polls (after (updatePoll sanitize (Poll.id p) fd) w)) i
     = Some {| Poll.id := Poll.id p;
               Poll.user_id := Poll.user_id p;
               Poll.question := sanitize (FormData.get "question" fd);
               Poll.options :=
                 map (fun o => sanitize (Some o))
                   (filter Js.truthy (FormData.getAll "options" fd));
               Poll.is_public := Poll.is_public p;
               Poll.created_at := Poll.created_at p |}
  /\ revalidated (after (updatePoll sanitize (Poll.id p) fd) w) = revalidated w.
Proof.
  intros Hs He Sv V Hp Ho. tests_of V.
  unfold result, after. rewrite updatePoll_unfold, T1, T2, T3, T4, Hs, He.
  unfold served in Sv.
  destruct (upstream w) as [| [e |] rest]; try contradiction; cbn [fst snd];
    (split; [reflexivity |]); (split; [| reflexivity]);
    cbn [polls with_polls]; rewrite nth_error_map, Hp; cbn [option_map];
    rewrite Ho, !eqb_refl; reflexivity.
Qed.

(** X19.  In every world and for every input, [updatePoll] keeps the
    ids, the owners, the visibility flags and the creation times of all
    polls, row by row, and leaves the votes alone. *)
Theorem updatePoll_keeps_identity sanitize pollId fd w :
  map Poll.id (polls (after (updatePoll sanitize pollId fd) w))
    = map Poll.id (polls w)
  /\ map Poll.user_id (polls (after (updatePoll sanitize pollId fd) w))
     = map Poll.user_id (polls w)
  /\ map Poll.is_public (polls (after (updatePoll sanitize pollId fd) w))
     = map Poll.is_public (polls w)
  /\ map Poll.created_at (polls (after (updatePoll sanitize pollId fd) w))
     = map Poll.created_at (polls w)
  /\ votes (after (updatePoll sanitize pollId fd) w) = votes w.
Proof.
  unfold after. rewrite updatePoll_unfold.
  destruct (test1 sanitize fd); [auto 6 |].
  destruct (test2 sanitize fd); [auto 6 |].
  destruct (test3 sanitize fd); [auto 6 |].
  destruct (test4 sanitize fd); [auto 6 |].
  destruct (session_error w); [auto 6 |].
  destruct (session w) as [u |]; [| auto 6].
  destruct (upstream w) as [| [e |] rest]; cbn [snd polls votes with_polls];
    auto 6;
    rewrite !map_map; repeat split; apply map_ext; intros r;
    destruct (_ && _); reflexivity.
Qed.

(** ** Voting *)

Lemma healthy_tail w o rest :
  upstream w = o :: rest -> healthy w -> healthy (with_upstream rest w).
Proof.
  unfold healthy. intros U H. rewrite U in H. inversion H; assumption.
Qed.

Lemma cast_vote_world pollId user i w :
  session (snd (cast_vote pollId user i w)) = session w
  /\ polls (snd (cast_vote pollId user i w)) = polls w
  /\ (healthy w -> healthy (snd (cast_vote pollId user i w))).
Proof.
  unfold cast_vote. destruct (upstream w) as [| [e |] rest] eqn:U; cbn [snd].
  - split; [reflexivity |]. split; [reflexivity |].
    intros H. apply healthy_answered in H. exact H.
  - split; [reflexivity |]. split; [reflexivity |].
    apply (healthy_tail w _ _ U).
  - split; [reflexivity |]. split; [reflexivity |].
    intros H. apply healthy_answered in H. exact H.
Qed.

Lemma submitVote_world pollId i w :
  session (after (submitVote pollId i) w) = session w
  /\ polls (after (submitVote pollId i) w) = polls w
  /\ (healthy w -> healthy (after (submitVote pollId i) w)).
Proof.
  assert (C1 : forall user,
             session (snd (cast_vote pollId user i (answered (asked GetUser w))))
               = session w
             /\ polls (snd (cast_vote pollId user i (answered (asked GetUser w))))
                = polls w
             /\ (healthy w ->
                 healthy (snd (cast_vote pollId user i (answered (asked GetUser w)))))).
  { intros user.
    destruct (cast_vote_world pollId user i (answered (asked GetUser w)))
      as (A & B & C).
    split; [exact A |]. split; [exact B |].
    intros H. apply C. apply healthy_answered in H. exact H. }
  assert (C2 : forall user o rest,
             upstream w = o :: rest ->
             session (snd (cast_vote pollId user i
                             (with_upstream rest (asked GetUser w)))) = session w
             /\ polls (snd (cast_vote pollId user i
                              (with_upstream rest (asked GetUser w)))) = polls w
             /\ (healthy w ->
                 healthy (snd (cast_vote pollId user i
                                 (with_upstream rest (asked GetUser w)))))).
  { intros user o rest U.
    destruct (cast_vote_world pollId user i (with_upstream rest (asked GetUser w)))
      as (A & B & C).
    split; [exact A |]. split; [exact B |].
    intros H. apply C. apply (healthy_tail w _ _ U H). }
  assert (C3 : session (answered (asked GetUser w)) = session w
               /\ polls (answered (asked GetUser w)) = polls w
               /\ (healthy w -> healthy (answered (asked GetUser w)))).
  { split; [reflexivity |]. split; [reflexivity |].
    intros H. apply healthy_answered in H. exact H. }
  unfold after. rewrite submitVote_unfold.
  destruct (session w) as [u |] eqn:Hs.
  - destruct (upstream w) as [| [e |] rest] eqn:U.
    + destruct (ballots _ _ _) as [| v [| v' l]];
        [apply C1 | exact C3 | apply C1].
    + destruct (Js.eqb _ _); [apply (C2 _ _ _ eq_refl) |].
      split; [exact Hs |]. split; [reflexivity |].
      apply (healthy_tail w _ _ U).
    + destruct (ballots _ _ _) as [| v [| v' l]];
        [apply C1 | exact C3 | apply C1].
  - destruct (cast_vote_world pollId None i (asked GetUser w)) as (A & B & C).
    split; [rewrite A; exact Hs |]. split; [exact B |]. exact C.
Qed.

Lemma submitVote_first pollId i w u :
  session w = Some u -> healthy w -> one_vote_each (votes w) ->
  List.length (ballots pollId (User.id u) (votes (after (submitVote pollId i) w))) = 1.
Proof.
  intros Hs Hh Inv.
  pose proof (healthy_served _ Hh) as Sv.
  pose proof (healthy_served _ (healthy_answered _ Hh)) as Sv'.
  pose proof (Inv pollId (User.id u)) as L.
  unfold after. rewrite submitVote_unfold, Hs.
  assert (E : match upstream w with
              | Some e :: rest =>
                  if Js.eqb (PgError.code e) js:"PGRST116"
                  then cast_vote pollId (Some u) i (with_upstream rest (asked GetUser w))
                  else (rejected (PgError.message e), with_upstream rest (asked GetUser w))
              | _ =>
                  match ballots pollId (User.id u) (votes w) with
                  | [_] => (rejected already_voted, answered (asked GetUser w))
                  | _ => cast_vote pollId (Some u) i (answered (asked GetUser w))
                  end
              end
              = match ballots pollId (User.id u) (votes w) with
                | [_] => (rejected already_voted, answered (asked GetUser w))
                | _ => cast_vote pollId (Some u) i (answered (asked GetUser w))
                end).
  { unfold served in Sv. destruct (upstream w) as [| [e |] rest];
      [reflexivity | contradiction | reflexivity]. }
  rewrite E.
  destruct (ballots pollId (User.id u) (votes w)) as [| v [| v' l]] eqn:B.
  - rewrite cast_vote_served by exact Sv'.
    cbn [snd votes with_serial with_votes answered asked with_upstream
         with_idp_requests].
    rewrite ballots_app, B. unfold ballots, cast_by. cbn.
    rewrite !eqb_refl. reflexivity.
  - cbn [snd votes answered asked with_upstream with_idp_requests].
    rewrite B. reflexivity.
  - simpl in L. lia.
Qed.

Lemma submitVote_again pollId j : forall n w u,
  session w = Some u -> healthy w ->
  List.length (ballots pollId (User.id u) (votes w)) = 1 ->
  result (replay n (submitVote pollId j)) w = repeat (rejected already_voted) n
  /\ votes (after (replay n (submitVote pollId j)) w) = votes w.
Proof.
  induction n as [| n IH]; intros w u Hs Hh L; [split; reflexivity |].
  pose proof (healthy_served _ Hh) as Sv.
  unfold result, after. cbn [replay]. rewrite run_bind, submitVote_unfold, Hs.
  destruct (ballots pollId (User.id u) (votes w)) as [| v [| v' l]] eqn:B;
    try discriminate L.
  assert (E : match upstream w with
              | Some e :: rest =>
                  if Js.eqb (PgError.code e) js:"PGRST116"
                  then cast_vote pollId (Some u) j (with_upstream rest (asked GetUser w))
                  else (rejected (PgError.message e), with_upstream rest (asked GetUser w))
              | _ => (rejected already_voted, answered (asked GetUser w))
              end = (rejected already_voted, answered (asked GetUser w))).
  { unfold served in Sv. destruct (upstream w) as [| [e |] rest];
      [reflexivity | contradiction | reflexivity]. }
  rewrite E, run_bind.
  assert (Hh1 : healthy (answered (asked GetUser w)))
    by (apply healthy_answered in Hh; exact Hh).
  assert (L1 : List.length
                 (ballots pollId (User.id u) (votes (answered (asked GetUser w)))) = 1)
    by (cbn [votes answered asked with_upstream with_idp_requests]; rewrite B;
        reflexivity).
  destruct (IH (answered (asked GetUser w)) u Hs Hh1 L1) as [R V].
  unfold result, after in R, V.
  destruct (run (replay n (submitVote pollId j)) (answered (asked GetUser w)))
    as [xs w2].
  cbn [fst snd] in *. subst xs. split; [reflexivity | exact V].
Qed.

(** X20.  For a signed-in user, a store that serves every request and a
    table with at most one vote per user and poll: after one [submitVote]
    on a poll the user has exactly one vote on it, and any number of
    further calls, with any index, are all refused with "You have already
    voted on this poll." and change no vote. *)
Theorem submitVote_counts_once pollId i w u :
  session w = Some u -> healthy w -> one_vote_each (votes w) ->
  List.length (ballots pollId (User.id u) (votes (after (submitVote pollId i) w))) = 1
  /\ forall n j,
       result (replay n (submitVote pollId j)) (after (submitVote pollId i) w)
         = repeat (rejected already_voted) n
       /\ votes (after (replay n (submitVote pollId j)) (after (submitVote pollId i) w))
          = votes (after (submitVote pollId i) w).
Proof.
  intros Hs Hh Inv.
  pose proof (submitVote_first pollId i w u Hs Hh Inv) as L.
  split; [exact L |]. intros n j.
  destruct (submitVote_world pollId i w) as (S1 & _ & H1).
  apply (submitVote_again pollId j n _ u); [rewrite S1; exact Hs | auto | exact L].
Qed.

(** ** What the actions leave alone *)

(** X21.  [getUserPolls], [getAdminPolls] and [getPollById] only read:
    polls, votes, session and the stale paths are as before. *)
Theorem lookups_are_read_only w id :
  (polls (after getUserPolls w) = polls w
   /\ votes (after getUserPolls w) = votes w
   /\ session (after getUserPolls w) = session w
   /\ revalidated (after getUserPolls w) = revalidated w)
  /\ (polls (after getAdminPolls w) = polls w
      /\ votes (after getAdminPolls w) = votes w
      /\ session (after getAdminPolls w) = session w
      /\ revalidated (after getAdminPolls w) = revalidated w)
  /\ (polls (after (getPollById id) w) = polls w
      /\ votes (after (getPollById id) w) = votes w
      /\ session (after (getPollById id) w) = session w
      /\ revalidated (after (getPollById id) w) = revalidated w).
Proof.
  unfold after. rewrite getUserPolls_full, getAdminPolls_full, getPollById_full.
  split; [| split].
  - destruct (session w) as [u |] eqn:Hs; [| auto].
    destruct (upstream w) as [| [e |] rest]; auto.
  - destruct (session w) as [u |] eqn:Hs; [| auto].
    destruct (User.is_admin_strict u); [| auto].
    destruct (upstream w) as [| [e |] rest]; auto.
  - destruct (upstream w) as [| [e |] rest]; auto.
Qed.

(** X22.  [createPoll] appends at most one poll and [submitVote] at most
    one vote; no existing row is removed or changed, [createPoll] leaves
    the votes alone and [submitVote] the polls and the stale paths. *)
Theorem inserts_only_append sanitize fd pollId i w :
  (exists added,
     polls (after (createPoll sanitize fd) w) = polls w ++ added
     /\ List.length added <= 1
     /\ votes (after (createPoll sanitize fd) w) = votes w)
  /\ (exists added,
        votes (after (submitVote pollId i) w) = votes w ++ added
        /\ List.length added <= 1
        /\ polls (after (submitVote pollId i) w) = polls w
        /\ revalidated (after (submitVote pollId i) w) = revalidated w).
Proof.
  assert (N : forall A (l : list A), l = l ++ []) by (intros; rewrite app_nil_r; auto).
  split.
  - unfold after. rewrite createPoll_unfold.
    destruct (test1 sanitize fd); [exists []; cbn; auto |].
    destruct (test2 sanitize fd); [exists []; cbn; auto |].
    destruct (test3 sanitize fd); [exists []; cbn; auto |].
    destruct (test4 sanitize fd); [exists []; cbn; auto |].
    destruct (session_error w); [exists []; cbn; auto |].
    destruct (session w) as [u |]; [| exists []; cbn; auto].
    destruct (upstream w) as [| [e |] rest];
      [eexists [_] | exists [] | eexists [_]]; cbn; auto.
  - assert (C : forall user w1,
               polls w1 = polls w -> votes w1 = votes w ->
               revalidated w1 = revalidated w ->
               exists added,
                 votes (snd (cast_vote pollId user i w1)) = votes w ++ added
                 /\ List.length added <= 1
                 /\ polls (snd (cast_vote pollId user i w1)) = polls w
                 /\ revalidated (snd (cast_vote pollId user i w1)) = revalidated w).
    { intros user w1 P V R. unfold cast_vote.
      destruct (upstream w1) as [| [e |] rest];
        [eexists [_] | exists [] | eexists [_]]; cbn; rewrite ?V; auto. }
    unfold after. rewrite submitVote_unfold.
    destruct (session w) as [u |]; [| apply C; reflexivity].
    destruct (upstream w) as [| [e |] rest].
    + destruct (ballots _ _ _) as [| v [| v' l]]; try (apply C; reflexivity).
      exists []. cbn. auto.
    + destruct (Js.eqb _ _); [apply C; reflexivity |]. exists []. cbn. auto.
    + destruct (ballots _ _ _) as [| v [| v' l]]; try (apply C; reflexivity).
      exists []. cbn. auto.
Qed.

(** ** Failures of the collaborators *)

(** X23.  When the store fails the request, each action of
    [poll-actions.ts] returns the message of the store as it is, with empty
    data, and changes no poll, no vote and no stale path. *)
Theorem store_failure_passes_through sanitize fd id w e rest :
  upstream w = Some e :: rest ->
  (forall u, session w = Some u ->
     result getUserPolls w
       = {| PollsRes.polls := []; PollsRes.error := Some (PgError.message e) |})
  /\ (forall u, session w = Some u ->
        User.is_admin (User.user_metadata u) = Some true ->
        result getAdminPolls w
          = {| PollsRes.polls := []; PollsRes.error := Some (PgError.message e) |})
  /\ result (getPollById id) w
     = {| PollRes.poll := None; PollRes.error := Some (PgError.message e) |}
  /\ (forall u, session w = Some u ->
        result (deletePoll id) w = rejected (PgError.message e)
        /\ polls (after (deletePoll id) w) = polls w
        /\ revalidated (after (deletePoll id) w) = revalidated w)
  /\ (forall u, session w = Some u -> session_error w = None ->
        valid_input sanitize fd ->
        (result (createPoll sanitize fd) w = rejected (PgError.message e)
         /\ polls (after (createPoll sanitize fd) w) = polls w
         /\ revalidated (after (createPoll sanitize fd) w) = revalidated w)
        /\ (result (updatePoll sanitize id fd) w = rejected (PgError.message e)
            /\ polls (after (updatePoll sanitize id fd) w) = polls w))
  /\ (forall i, session w = None ->
        result (submitVote id i) w = rejected (PgError.message e)
        /\ votes (after (submitVote id i) w) = votes w).
Proof.
  intros U. unfold result, after.
  rewrite getUserPolls_full, getAdminPolls_full, getPollById_full, deletePoll_full,
    createPoll_unfold, updatePoll_unfold, U.
  split; [| split; [| split; [| split; [| split]]]].
  - intros u ->. reflexivity.
  - intros u -> Ha. unfold User.is_admin_strict. rewrite Ha. reflexivity.
  - reflexivity.
  - intros u ->. auto.
  - intros u -> -> V. tests_of V. rewrite T1, T2, T3, T4. auto.
  - intros i Hs. rewrite submitVote_unfold, Hs. unfold cast_vote.
    cbn [upstream asked with_idp_requests]. rewrite U. auto.
Qed.

(** X24.  When [getUser] reports an error, [createPoll] and [updatePoll]
    with a valid input return its message as it is, even if a user came
    with it, and the store is not asked. *)
Theorem provider_error_passes_through sanitize fd pollId w e :
  valid_input sanitize fd -> session_error w = Some e ->
  run (createPoll sanitize fd) w
    = (rejected (AuthError.message e), asked GetUser w)
  /\ run (updatePoll sanitize pollId fd) w
     = (rejected (AuthError.message e), asked GetUser w).
Proof.
  intros V He. tests_of V.
  rewrite createPoll_unfold, updatePoll_unfold, T1, T2, T3, T4, He.
  split; reflexivity.
Qed.

(** ** Concrete runs *)

Lemma getUserPolls_lists_own_polls_sample :
  PollsRes.error (result getUserPolls (Sample.signed_in Sample.alice)) = None
  /\ (In Sample.secret (PollsRes.polls (result getUserPolls (Sample.signed_in Sample.alice)))
      <-> In Sample.secret (polls (Sample.signed_in Sample.alice))
          /\ Poll.user_id Sample.secret = User.id Sample.alice).
Proof.
  destruct (getUserPolls_lists_own_polls (Sample.signed_in Sample.alice) Sample.alice
              eq_refl I) as (E & _ & _ & M).
  split; [exact E | exact (M Sample.secret)].
Defined.

Lemma getUserPolls_never_lists_foreign_polls_sample :
  In Sample.secret (polls (Sample.signed_in Sample.alice))
  /\ exists u, session (Sample.signed_in Sample.alice) = Some u
               /\ Poll.user_id Sample.secret = User.id u.
Proof.
  apply (getUserPolls_never_lists_foreign_polls (Sample.signed_in Sample.alice)
           Sample.secret).
  vm_compute. left. reflexivity.
Defined.

Lemma getAdminPolls_access_sample :
  (PollsRes.error (result getAdminPolls (Sample.signed_in Sample.root)) = None
   /\ Permutation (PollsRes.polls (result getAdminPolls (Sample.signed_in Sample.root)))
        [Sample.secret; Sample.open])
  /\ result getAdminPolls (Sample.signed_in Sample.bob)
     = {| PollsRes.polls := []; PollsRes.error := Some js:"Unauthorized access." |}
  /\ result getAdminPolls Sample.world
     = {| PollsRes.polls := []; PollsRes.error := Some js:"Unauthorized access." |}.
Proof.
  destruct (getAdminPolls_access (Sample.signed_in Sample.root)) as (A & _).
  destruct (A Sample.root eq_refl eq_refl I) as (E & P & _).
  split; [split; [exact E | exact P] |]. split.
  - destruct (getAdminPolls_access (Sample.signed_in Sample.bob)) as (_ & B).
    unfold result. rewrite B; [reflexivity |]. right. exists Sample.bob. split; [reflexivity |].
    discriminate.
  - destruct (getAdminPolls_access Sample.world) as (_ & B).
    unfold result. rewrite B; [reflexivity |]. left. reflexivity.
Defined.

Lemma getPollById_never_leaks_sample :
  In Sample.secret (polls (Sample.signed_in Sample.alice))
  /\ Poll.id Sample.secret = js:"p-1"
  /\ canRead (session (Sample.signed_in Sample.alice)) Sample.secret = true
  /\ PollRes.error (result (getPollById js:"p-1") (Sample.signed_in Sample.alice))
     = None.
Proof.
  apply (getPollById_never_leaks js:"p-1" (Sample.signed_in Sample.alice)
           Sample.secret).
  vm_compute. reflexivity.
Defined.

Lemma getPollById_unknown_sample :
  result (getPollById js:"p-9") (Sample.signed_in Sample.root) = not_found.
Proof.
  apply getPollById_unknown; [exact I |].
  simpl. intros [H | [H | []]]; discriminate H.
Defined.

Lemma deletePoll_spares_sample :
  In Sample.secret (polls (after (deletePoll js:"p-1") (Sample.signed_in Sample.bob)))
  /\ In Sample.open (polls (after (deletePoll js:"p-1") (Sample.signed_in Sample.root))).
Proof.
  split.
  - apply deletePoll_spares; [left; reflexivity |].
    right. right. exists Sample.bob. repeat split; discriminate.
  - apply deletePoll_spares; [right; left; reflexivity |].
    left. discriminate.
Defined.

Lemma deletePoll_only_removes_sample :
  run (deletePoll js:"p-1") Sample.world
    = (rejected js:"You must be logged in to delete a poll.",
       asked GetUser Sample.world)
  /\ votes (after (deletePoll js:"p-2") (Sample.signed_in Sample.bob))
     = [Sample.ballot].
Proof.
  destruct (deletePoll_only_removes js:"p-1" Sample.world) as (_ & _ & A).
  split; [exact (A eq_refl) |].
  exact (proj1 (proj2 (deletePoll_only_removes js:"p-2" (Sample.signed_in Sample.bob)))).
Defined.

Lemma createPoll_then_getPollById_sample :
  result (createPoll Sample.strip (Sample.long_form 9 (repeat js:"a" 2)))
    (Sample.signed_in Sample.bob) = accepted
  /\ result (getPollById js:"row-3")
       (after (createPoll Sample.strip (Sample.long_form 9 (repeat js:"a" 2)))
          (Sample.signed_in Sample.bob))
     = found (new_poll Sample.strip (Sample.long_form 9 (repeat js:"a" 2))
                Sample.bob (Sample.signed_in Sample.bob)).
Proof.
  destruct (createPoll_then_getPollById Sample.strip
              (Sample.long_form 9 (repeat js:"a" 2))
              (Sample.signed_in Sample.bob) Sample.bob) as (A & _ & _ & B).
  - reflexivity.
  - reflexivity.
  - constructor.
  - apply sample_valid; reflexivity.
  - exact sample_key.
  - simpl. intros [H | [H | []]]; discriminate H.
  - split; [exact A | exact B].
Defined.

Lemma sample_well_formed : Forall well_formed (polls Sample.world).
Proof.
  repeat constructor; simpl; try lia; discriminate.
Qed.

Lemma poll_writes_keep_well_formed_sample :
  Forall well_formed
    (polls (after (createPoll Sample.strip (Sample.long_form 9 (repeat js:"a" 2)))
              (Sample.signed_in Sample.bob)))
  /\ Forall well_formed
       (polls (after (updatePoll Sample.strip js:"p-2"
                        (Sample.long_form 9 (repeat js:"a" 2)))
                 (Sample.signed_in Sample.bob))).
Proof.
  apply poll_writes_keep_well_formed. exact sample_well_formed.
Defined.

Lemma updatePoll_rewrites_own_poll_sample :
  result (updatePoll Sample.strip js:"p-1" (Sample.long_form 9 (repeat js:"a" 2)))
    (Sample.signed_in Sample.alice) = accepted
  /\ option_map Poll.question
       (nth_error
          (polls (after (updatePoll Sample.strip js:"p-1"
                           (Sample.long_form 9 (repeat js:"a" 2)))
                    (Sample.signed_in Sample.alice))) 0)
     = Some (Sample.letters 9).
Proof.
  destruct (updatePoll_rewrites_own_poll Sample.strip
              (Sample.long_form 9 (repeat js:"a" 2))
              (Sample.signed_in Sample.alice) Sample.alice 0 Sample.secret)
    as (A & B & _).
  - reflexivity.
  - reflexivity.
  - exact I.
  - apply sample_valid; reflexivity.
  - reflexivity.
  - reflexivity.
  - split; [exact A |].
    change js:"p-1" with (Poll.id Sample.secret). rewrite B. reflexivity.
Defined.

Lemma submitVote_counts_once_sample :
  List.length
    (ballots js:"p-2" js:"u-bob"
       (votes (after (submitVote js:"p-2" 1) (Sample.signed_in Sample.bob)))) = 1
  /\ result (replay 2 (submitVote js:"p-2" 2))
       (after (submitVote js:"p-2" 1) (Sample.signed_in Sample.bob))
     = [rejected already_voted; rejected already_voted].
Proof.
  destruct (submitVote_counts_once js:"p-2" 1 (Sample.signed_in Sample.bob)
              Sample.bob eq_refl (Forall_nil _) sample_votes) as (A & B).
  split; [exact A |]. exact (proj1 (B 2 2%Z)).
Defined.

Lemma store_failure_passes_through_sample :
  result (getPollById js:"p-2")
    (with_upstream [Some Sample.outage] (Sample.signed_in Sample.bob))
    = {| PollRes.poll := None; PollRes.error := Some js:"connection lost" |}
  /\ result (deletePoll js:"p-2")
       (with_upstream [Some Sample.outage] (Sample.signed_in Sample.bob))
     = rejected js:"connection lost"
  /\ polls (after (deletePoll js:"p-2")
              (with_upstream [Some Sample.outage] (Sample.signed_in Sample.bob)))
     = [Sample.secret; Sample.open].
Proof.
  destruct (store_failure_passes_through Sample.strip
              (Sample.long_form 9 (repeat js:"a" 2)) js:"p-2"
              (with_upstream [Some Sample.outage] (Sample.signed_in Sample.bob))
              Sample.outage [] eq_refl) as (_ & _ & A & B & _).
  split; [exact A |].
  destruct (B Sample.bob eq_refl) as (R & P & _).
  split; [exact R | exact P].
Defined.

Lemma provider_error_passes_through_sample :
  result (createPoll Sample.strip (Sample.long_form 9 (repeat js:"a" 2)))
    (with_session_error (Some {| AuthError.message := js:"token expired" |})
       (Sample.signed_in Sample.bob))
  = rejected js:"token expired".
Proof.
  destruct (provider_error_passes_through Sample.strip
              (Sample.long_form 9 (repeat js:"a" 2)) js:"p-2"
              (with_session_error (Some {| AuthError.message := js:"token expired" |})
                 (Sample.signed_in Sample.bob))
              {| AuthError.message := js:"token expired" |}) as (A & _).
  - apply sample_valid; reflexivity.
  - reflexivity.
  - unfold result. rewrite A. reflexivity.
Defined.

End PollMore.
